(** * Contact-management backend: a shallow embedding and its checked properties

    The file follows the layout of the Python package:
    [models] (src/database/models.py), [db] (src/database/db.py),
    [repository_contacts] (src/repository/contacts.py),
    [repositories_users] (src/repository/users.py),
    [services] (src/services/*.py), [routes_auth] (src/routes/auth.py) and
    [routes_contacts] (src/routes/contacts.py).  Coroutines are modelled as
    computations in a state-and-exception monad over the request's database
    session; a raised Python exception is the [Raise] result. *)

From Stdlib Require Import ZArith List String Ascii Bool Lia.
Import ListNotations.
Open Scope string_scope.
Open Scope Z_scope.

(** ** Python values shared by all modules *)

(** Keyword-argument values used when an exception object is built. *)
Inductive KwArg : Type :=
| KwInt (z : Z)
| KwStr (s : string).

(** The exceptions the modelled code can raise.  [HTTPException] is FastAPI's;
    the others are Python's or SQLAlchemy's own. *)
Inductive Exn : Type :=
| HTTPException (status_code : Z) (detail : string)
| AttributeError (msg : string)
| TypeError (msg : string)
| MultipleResultsFound
| ConnectionErrors (msg : string)
| Exception (msg : string).

Inductive Result (A : Type) : Type :=
| Ok (a : A)
| Raise (e : Exn).
Arguments Ok {A} a.
Arguments Raise {A} e.

Definition HTTP_200_OK : Z := 200.
Definition HTTP_201_CREATED : Z := 201.
Definition HTTP_400_BAD_REQUEST : Z := 400.
Definition HTTP_401_UNAUTHORIZED : Z := 401.
Definition HTTP_403_FORBIDDEN : Z := 403.
Definition HTTP_404_NOT_FOUND : Z := 404.
Definition HTTP_409_CONFLICT : Z := 409.
Definition HTTP_500_INTERNAL_SERVER_ERROR : Z := 500.

Fixpoint kwargs_get (name : string) (kwargs : list (string * KwArg)) : option KwArg :=
  match kwargs with
  | [] => None
  | (k, v) :: rest => if String.eqb k name then Some v else kwargs_get name rest
  end.

(** Building an [HTTPException] from keyword arguments: the signature is
    [__init__(self, status_code, detail=None, headers=None)].  A keyword that
    is not a parameter, or a missing [status_code], makes the call itself
    raise [TypeError]; the value returned here is the exception that the
    enclosing [raise] statement ends up raising. *)
Definition new_HTTPException (kwargs : list (string * KwArg)) : Exn :=
  if forallb (fun kv => existsb (String.eqb (fst kv)) ["status_code"; "detail"; "headers"]) kwargs
  then
    match kwargs_get "status_code" kwargs with
    | Some (KwInt sc) =>
        match kwargs_get "detail" kwargs with
        | Some (KwStr d) => HTTPException sc d
        | _ => HTTPException sc ""
        end
    | Some (KwStr _) => TypeError "status_code must be an integer"
    | None => TypeError "__init__() missing 1 required positional argument: 'status_code'"
    end
  else TypeError "__init__() got an unexpected keyword argument".

(** Status line of the response to a request whose handler ended with [r].
    A handler that returns is answered with the route's declared status.  A
    handler runs inside the scope of [get_db], and that scope catches
    whatever the handler raises, an [HTTPException] as well as any other
    exception, and raises nothing again (src/database/db.py, [session]): no
    exception reaches an exception handler and no response was produced, so
    the answer is the generic server error whatever was raised. *)
Definition response_status {A : Type} (success_status : Z) (r : Result A) : Z :=
  match r with
  | Ok _ => success_status
  | Raise (HTTPException _ _) => HTTP_500_INTERNAL_SERVER_ERROR
  | Raise _ => HTTP_500_INTERNAL_SERVER_ERROR
  end.

(** ** src/database/models.py *)

Module Role.
Inductive t : Type := admin | moderator | user.

Definition eqb (a b : t) : bool :=
  match a, b with
  | admin, admin | moderator, moderator | user, user => true
  | _, _ => false
  end.
End Role.

(** Modelled from the spec: src/database/models.py is missing; the attributes
    of [User] and [Contact] are those of section 3 (data model). *)
Record User : Type := mkUser {
  u_id : Z;
  u_username : string;
  u_email : string;
  u_password : string;
  u_avatar : option string;
  u_refresh_token : option string;
  u_confirmed : bool;
  u_role : Role.t
}.

Record Contact : Type := mkContact {
  c_id : Z;
  c_first_name : string;
  c_last_name : string;
  c_email : string;
  c_phone_number : string;
  c_birthday : string;
  c_data : option string;
  c_user_id : Z
}.

(** Request bodies (src/schemas): [ContactSchema] and [ContactUpdateSchema]
    carry the same fields, [UserSchema] the signup data. *)
Record ContactSchema : Type := mkContactSchema {
  b_first_name : string;
  b_last_name : string;
  b_email : string;
  b_phone_number : string;
  b_birthday : string;
  b_data : option string
}.

Record UserSchema : Type := mkUserSchema {
  s_username : string;
  s_email : string;
  s_password : string
}.

Record TokenSchema : Type := mkTokenSchema {
  access_token : string;
  refresh_token_field : string;
  token_type : string
}.

(** ** src/database/db.py: the session and its transactional scope *)

Module db.

(** The two tables, rows in storage order. *)
Record Store : Type := mkStore {
  users : list User;
  contacts : list Contact
}.

Inductive TxEvent : Type := Commit | Rollback | Close.

(** An [AsyncSession]: what the database holds durably ([committed]), what
    this session sees ([working]: committed rows plus its own pending
    changes), and the transaction-control calls made on it so far. *)
Record Session : Type := mkSession {
  committed : Store;
  working : Store;
  log : list TxEvent
}.

(** Coroutines over a session. *)
Definition M (A : Type) : Type := Session -> Result A * Session.

Definition ret {A : Type} (a : A) : M A := fun s => (Ok a, s).

Definition raise {A : Type} (e : Exn) : M A := fun s => (Raise e, s).

Definition bind {A B : Type} (m : M A) (k : A -> M B) : M B :=
  fun s =>
    match m s with
    | (Ok a, s') => k a s'
    | (Raise e, s') => (Raise e, s')
    end.

(** A call into a collaborator that returns or raises without touching the
    session. *)
Definition lift {A : Type} (r : Result A) : M A := fun s => (r, s).

Definition commit : M unit :=
  fun s => (Ok tt, {| committed := working s; working := working s; log := log s ++ [Commit] |}).

Definition rollback (s : Session) : Session :=
  {| committed := committed s; working := committed s; log := log s ++ [Rollback] |}.

Definition close (s : Session) : Session :=
  {| committed := committed s; working := committed s; log := log s ++ [Close] |}.

Definition open_session (database : Store) : Session :=
  {| committed := database; working := database; log := [] |}.

(** Primary keys are assigned by the engine on insert; any value above the
    ones in use models the auto-increment column. *)
Definition next_id (ids : list Z) : Z := Z.succ (fold_right Z.max 0 ids).

(** [result.scalar_one_or_none()] *)
Definition scalar_one_or_none {A : Type} (rows : list A) : Result (option A) :=
  match rows with
  | [] => Ok None
  | [x] => Ok (Some x)
  | _ :: _ :: _ => Raise MultipleResultsFound
  end.

(** [.offset(offset).limit(limit)] *)
Definition offset_limit {A : Type} (offset limit : nat) (rows : list A) : list A :=
  firstn limit (skipn offset rows).

(** What is left of a [DatabaseSessionManager.session()] block once the
    context manager has exited. *)
Record ScopeResult (A : Type) : Type := mkScopeResult {
  yielded : option A;          (* value of the block when it completed *)
  propagated : option Exn;     (* exception leaving the [async with] *)
  printed : list Exn;          (* what [print(err)] wrote *)
  events : list TxEvent;       (* commit / rollback / close calls, in order *)
  database : Store             (* durable content after the scope *)
}.
Arguments yielded {A} _.
Arguments propagated {A} _.
Arguments printed {A} _.
Arguments events {A} _.
Arguments database {A} _.

(** [DatabaseSessionManager.session]:
<<
    if self._session_maker is None: raise Exception("Session is not initialized")
    session = self._session_maker()
    try: yield session
    except Exception as err: print(err); await session.rollback()
    finally: await session.close()
>>
    [session_maker] is [None] when the manager was not initialised; [block]
    is the code run while the session is yielded. *)
Definition session {A : Type} (session_maker : option unit) (block : M A)
           (data : Store) : ScopeResult A :=
  match session_maker with
  | None =>
      {| yielded := None; propagated := Some (Exception "Session is not initialized");
         printed := []; events := []; database := data |}
  | Some _ =>
      match block (open_session data) with
      | (Ok a, s) =>
          let s' := close s in
          {| yielded := Some a; propagated := None; printed := [];
             events := log s'; database := committed s' |}
      | (Raise err, s) =>
          let s' := close (rollback s) in
          {| yielded := None; propagated := None; printed := [err];
             events := log s'; database := committed s' |}
      end
  end.

(** [sessionmanager = DatabaseSessionManager(config.DB_URL)] always has a
    session maker; [get_db] yields its session to the request handler. *)
Definition get_db {A : Type} (handler : M A) (data : Store) : ScopeResult A :=
  session (Some tt) handler data.

End db.

Notation "x <- m ;; k" := (db.bind m (fun x => k))
  (at level 61, m at next level, right associativity).
Notation "m ;;; k" := (db.bind m (fun _ => k))
  (at level 61, right associativity).

(** ** src/repository/contacts.py *)

Module repository_contacts.
Import db.

Definition owned_by (user : User) (c : Contact) : bool :=
  c_user_id c =? u_id user.

(** [select(Contact).filter_by(id=contact_id, user=user)] *)
Definition filter_by_id_user (contact_id : Z) (user : User) (rows : list Contact) : list Contact :=
  filter (fun c => (c_id c =? contact_id) && owned_by user c) rows.

Definition get_contacts (limit offset : nat) (user : User) : M (list Contact) :=
  fun s => (Ok (offset_limit offset limit (filter (owned_by user) (contacts (working s)))), s).

Definition get_all_contacts (limit offset : nat) : M (list Contact) :=
  fun s => (Ok (offset_limit offset limit (contacts (working s))), s).

(** The query as the engine answers it for a [contact_id] within the range
    of the id column, as the id of every stored row is. *)
Definition get_contact (contact_id : Z) (user : User) : M (option Contact) :=
  fun s => (scalar_one_or_none (filter_by_id_user contact_id user (contacts (working s))), s).

(** The [Contact] built from [body.model_dump(exclude_unset=True)] and
    [user=user], with the primary key the engine gives it. *)
Definition new_contact (cid : Z) (body : ContactSchema) (user : User) : Contact :=
  {| c_id := cid;
     c_first_name := b_first_name body; c_last_name := b_last_name body;
     c_email := b_email body; c_phone_number := b_phone_number body;
     c_birthday := b_birthday body; c_data := b_data body;
     c_user_id := u_id user |}.

(** [db.add(contact)] *)
Definition add (body : ContactSchema) (user : User) : M Contact :=
  fun s =>
    let w := working s in
    let contact := new_contact (next_id (map c_id (contacts w))) body user in
    (Ok contact,
     {| committed := committed s;
        working := {| users := users w; contacts := contacts w ++ [contact] |};
        log := log s |}).

(** [await db.refresh(contact)]: the row as the session now holds it. *)
Definition refresh (contact : Contact) : M Contact :=
  fun s =>
    match find (fun c => c_id c =? c_id contact) (contacts (working s)) with
    | Some c => (Ok c, s)
    | None => (Raise (Exception "Could not refresh instance"), s)
    end.

Definition create_todo (body : ContactSchema) (user : User) : M Contact :=
  contact <- add body user ;;
  commit ;;;
  refresh contact.

(** The six attribute assignments of [update_contact] on the loaded row. *)
Definition assign (body : ContactSchema) (c : Contact) : Contact :=
  {| c_id := c_id c;
     c_first_name := b_first_name body; c_last_name := b_last_name body;
     c_email := b_email body; c_phone_number := b_phone_number body;
     c_birthday := b_birthday body; c_data := b_data body;
     c_user_id := c_user_id c |}.

(** On flush the unit of work writes the assigned attributes of a loaded
    object back to its row, found by primary key. *)
Definition write_back (contact_id : Z) (assignment : Contact -> Contact) : M unit :=
  fun s =>
    let w := working s in
    (Ok tt,
     {| committed := committed s;
        working := {| users := users w;
                      contacts := map (fun c => if c_id c =? contact_id then assignment c else c)
                                      (contacts w) |};
        log := log s |}).

(** [await db.delete(contact)] *)
Definition delete (contact : Contact) : M unit :=
  fun s =>
    let w := working s in
    (Ok tt,
     {| committed := committed s;
        working := {| users := users w;
                      contacts := filter (fun c => negb (c_id c =? c_id contact)) (contacts w) |};
        log := log s |}).

Definition update_contact (contact_id : Z) (body : ContactSchema) (user : User)
  : M (option Contact) :=
  contact <- get_contact contact_id user ;;
  match contact with
  | Some c =>
      write_back (c_id c) (assign body) ;;;
      commit ;;;
      c' <- refresh c ;;
      ret (Some c')
  | None => ret None
  end.

Definition remove_contact (contact_id : Z) (user : User) : M (option Contact) :=
  contact <- get_contact contact_id user ;;
  match contact with
  | Some c =>
      delete c ;;;
      commit ;;;
      ret (Some c)
  | None => ret None
  end.

(** The module's namespace: what [repository_contacts.<name>] resolves to. *)
Inductive Attr : Type :=
| ListOwn (f : nat -> nat -> User -> M (list Contact))
| ListAll (f : nat -> nat -> M (list Contact))
| ById (f : Z -> User -> M (option Contact))
| Create (f : ContactSchema -> User -> M Contact)
| Update (f : Z -> ContactSchema -> User -> M (option Contact)).

Definition namespace : list (string * Attr) :=
  [ ("get_contacts", ListOwn get_contacts);
    ("get_all_contacts", ListAll get_all_contacts);
    ("get_contact", ById get_contact);
    ("create_todo", Create create_todo);
    ("update_contact", Update update_contact);
    ("remove_contact", ById remove_contact) ].

Fixpoint getattr_in (ns : list (string * Attr)) (name : string) : option Attr :=
  match ns with
  | [] => None
  | (k, v) :: rest => if String.eqb k name then Some v else getattr_in rest name
  end.

Definition getattr (name : string) : option Attr := getattr_in namespace name.

End repository_contacts.

(** Reading attribute [name] of the result of a lookup: on [None] Python
    raises [AttributeError]. *)
Definition getattr {A : Type} (obj : option User) (name : string) (field : User -> A)
  : db.M A :=
  match obj with
  | Some u => db.ret (field u)
  | None => db.raise (AttributeError ("'NoneType' object has no attribute '" ++ name ++ "'"))
  end.

(** ** src/repository/users.py *)

Module repositories_users.
Import db.

(** Modelled from the spec: src/repository/users.py is missing (only its
    tests are present); section 4.2 gives
    [get_user_by_email(email) -> User | none], and the test reads the row
    with [scalar_one_or_none]. *)
Definition get_user_by_email (email : string) : M (option User) :=
  fun s => (scalar_one_or_none (filter (fun u => String.eqb (u_email u) email) (users (working s))), s).

(** Attribute assignments on a loaded [User]. *)
Definition set_refresh_token (user : User) (token : option string) : User :=
  {| u_id := u_id user; u_username := u_username user; u_email := u_email user;
     u_password := u_password user; u_avatar := u_avatar user;
     u_refresh_token := token; u_confirmed := u_confirmed user; u_role := u_role user |}.

Definition set_confirmed (user : User) (flag : bool) : User :=
  {| u_id := u_id user; u_username := u_username user; u_email := u_email user;
     u_password := u_password user; u_avatar := u_avatar user;
     u_refresh_token := u_refresh_token user; u_confirmed := flag; u_role := u_role user |}.

Definition set_avatar (user : User) (url : option string) : User :=
  {| u_id := u_id user; u_username := u_username user; u_email := u_email user;
     u_password := u_password user; u_avatar := url;
     u_refresh_token := u_refresh_token user; u_confirmed := u_confirmed user;
     u_role := u_role user |}.

(** On flush the unit of work writes the assigned attributes of a loaded
    [User] back to its row, found by primary key. *)
Definition write_back (user_id : Z) (assignment : User -> User) : M unit :=
  fun s =>
    let w := working s in
    (Ok tt,
     {| committed := committed s;
        working := {| users := map (fun u => if u_id u =? user_id then assignment u else u)
                                   (users w);
                      contacts := contacts w |};
        log := log s |}).

Definition add (user : User) : M unit :=
  fun s =>
    let w := working s in
    (Ok tt,
     {| committed := committed s;
        working := {| users := users w ++ [user]; contacts := contacts w |};
        log := log s |}).

Definition refresh (user : User) : M User :=
  fun s =>
    match find (fun u => u_id u =? u_id user) (users (working s)) with
    | Some u => (Ok u, s)
    | None => (Raise (Exception "Could not refresh instance"), s)
    end.

(** Modelled from the spec: [create_user(signup_data) -> User] persists a
    new User with confirmed=false and tries to enrich the avatar through
    the avatar-lookup service [get_image], whose failure is ignored
    (section 4.2); the tests check add, one commit and refresh.  The role
    of a new account is the plain [Role.user]. *)
Definition lookup_avatar (get_image : string -> Result string) (email : string)
  : option string :=
  match get_image email with
  | Ok url => Some url
  | Raise _ => None
  end.

Definition new_user (uid : Z) (avatar : option string) (body : UserSchema) : User :=
  {| u_id := uid;
     u_username := s_username body; u_email := s_email body;
     u_password := s_password body; u_avatar := avatar;
     u_refresh_token := None; u_confirmed := false; u_role := Role.user |}.

Definition create_user (get_image : string -> Result string) (body : UserSchema) : M User :=
  fun s =>
    let new_user := new_user (next_id (map u_id (users (working s))))
                             (lookup_avatar get_image (s_email body)) body in
    (add new_user ;;; commit ;;; refresh new_user) s.

(** Modelled from the spec: [update_token(user, token_or_none)] overwrites
    the user's refresh_token field (section 4.2); the test checks the
    assignment and one commit. *)
Definition update_token (user : User) (token : option string) : M unit :=
  write_back (u_id user) (fun row => set_refresh_token row token) ;;;
  commit.

(** Modelled from the spec: [confirmed_email(email)] sets confirmed=true
    for the matching user (section 4.2); the test checks that the row got
    through [get_user_by_email] is assigned and that one commit follows. *)
Definition confirmed_email (email : string) : M unit :=
  user <- get_user_by_email email ;;
  match user with
  | None => raise (AttributeError "'NoneType' object has no attribute 'confirmed'")
  | Some u =>
      write_back (u_id u) (fun row => set_confirmed row true) ;;;
      commit
  end.

(** Modelled from the spec: [update_avatar(email, url) -> User] overwrites
    avatar and returns the updated record (section 4.2). *)
Definition update_avatar (email url : string) : M User :=
  user <- get_user_by_email email ;;
  match user with
  | None => raise (AttributeError "'NoneType' object has no attribute 'avatar'")
  | Some u =>
      write_back (u_id u) (fun row => set_avatar row (Some url)) ;;;
      commit ;;;
      refresh u
  end.

End repositories_users.

(** ** src/services *)

Module services.

(** Modelled from the spec: src/services/auth.py is missing; [Auth] is the
    interface of the credential service of section 4.1.  Hashing, signing
    and decoding stay abstract; an operation that can fail returns a
    [Result].  [get_current_user] is resolved by the framework before a
    handler runs and appears as the handler's [user] argument. *)
Record Auth : Type := mkAuth {
  get_password_hash : string -> string;
  verify_password : string -> string -> Result bool;
  create_access_token : list (string * string) -> string;
  create_refresh_token : list (string * string) -> string;
  decode_refresh_token : string -> Result string;
  create_email_token : list (string * string) -> string;
  get_email_from_token : string -> Result string
}.

(** src/services/email.py *)
Record MessageSchema : Type := mkMessage {
  subject : string;
  recipients : list string;
  template_body : list (string * string)
}.

(** The mail transport: [FastMail(conf).send_message(message, template_name)]. *)
Definition Transport : Type := MessageSchema -> string -> Result unit.

(** [send_email]: returns what the coroutine returns or raises, and what it
    printed.  Only [ConnectionErrors] is caught. *)
Definition send_email (auth_service : Auth) (send_message : Transport)
           (email username host : string) : Result unit * list Exn :=
  let token_verification := create_email_token auth_service [("sub", email)] in
  let message := {| subject := "Confirm your email ";
                    recipients := [email];
                    template_body := [("host", host); ("username", username);
                                      ("token", token_verification)] |} in
  match send_message message "verify_email.html" with
  | Ok _ => (Ok tt, [])
  | Raise (ConnectionErrors m) => (Ok tt, [ConnectionErrors m])
  | Raise e => (Raise e, [])
  end.

(** src/services/roles.py: [RoleAccess(allowed_roles).__call__(request, user)] *)
Definition RoleAccess (allowed_roles : list Role.t) (user : User) : Result unit :=
  if negb (existsb (Role.eqb (u_role user)) allowed_roles)
  then Raise (new_HTTPException [("status_code", KwInt HTTP_403_FORBIDDEN);
                                 ("detail", KwStr "FORBIDDEN")])
  else Ok tt.

End services.

(** A task queued on [BackgroundTasks]: the only one is [send_email]. *)
Inductive Task : Type :=
| send_email_task (email username host : string).

Definition BackgroundTasks : Type := list Task.

Definition add_task (bt : BackgroundTasks) (t : Task) : BackgroundTasks := (bt ++ [t])%list.

(** ** src/routes/auth.py *)

Module routes_auth.
Import db.

Section Handlers.
Variable auth_service : services.Auth.
(** The avatar lookup used by [repositories_users.create_user]. *)
Variable get_image : string -> Result string.

Definition signup (body : UserSchema) (bt : BackgroundTasks) (base_url : string)
  : M (User * BackgroundTasks) :=
  exist_user <- repositories_users.get_user_by_email (s_email body) ;;
  match exist_user with
  | Some _ =>
      raise (new_HTTPException [("status_code", KwInt HTTP_409_CONFLICT);
                                ("detail", KwStr "Account already exists")])
  | None =>
      let body := {| s_username := s_username body; s_email := s_email body;
                     s_password := services.get_password_hash auth_service (s_password body) |} in
      new_user <- repositories_users.create_user get_image body ;;
      let bt := add_task bt (send_email_task (u_email new_user) (u_username new_user) base_url) in
      ret (new_user, bt)
  end.

Definition login (username password : string) : M TokenSchema :=
  user <- repositories_users.get_user_by_email username ;;
  match user with
  | None =>
      raise (new_HTTPException [("status_code", KwInt HTTP_401_UNAUTHORIZED);
                                ("detail", KwStr "Invalid email")])
  | Some user =>
      if negb (u_confirmed user) then
        raise (new_HTTPException [("status_code", KwInt HTTP_401_UNAUTHORIZED);
                                  ("detail", KwStr "Email not confirmed")])
      else
        verified <- lift (services.verify_password auth_service password (u_password user)) ;;
        if negb verified then
          raise (new_HTTPException [("tatus_code", KwInt HTTP_401_UNAUTHORIZED);
                                    ("detail", KwStr "Invalid password")])
        else
          let access_token :=
            services.create_access_token auth_service [("sub", u_email user); ("test", "Соня")] in
          let refresh_token :=
            services.create_refresh_token auth_service [("sub", u_email user)] in
          repositories_users.update_token user (Some refresh_token) ;;;
          ret {| access_token := access_token; refresh_token_field := refresh_token;
                 token_type := "bearer" |}
  end.

(** [user.refresh_token != token] *)
Definition token_differs (stored : option string) (token : string) : bool :=
  match stored with
  | Some t => negb (String.eqb t token)
  | None => true
  end.

Definition refresh_token (credentials : string) : M TokenSchema :=
  let token := credentials in
  email <- lift (services.decode_refresh_token auth_service token) ;;
  user <- repositories_users.get_user_by_email email ;;
  match user with
  | None =>
      (* [user.refresh_token] on the [None] of a failed lookup *)
      raise (AttributeError "'NoneType' object has no attribute 'refresh_token'")
  | Some user =>
      if token_differs (u_refresh_token user) token then
        repositories_users.update_token user None ;;;
        raise (new_HTTPException [("status_code", KwInt HTTP_401_UNAUTHORIZED);
                                  ("detail", KwStr "Invalid refresh token")])
      else
        let access_token := services.create_access_token auth_service [("sub", email)] in
        let refresh_token := services.create_refresh_token auth_service [("sub", email)] in
        repositories_users.update_token user (Some refresh_token) ;;;
        ret {| access_token := access_token; refresh_token_field := refresh_token;
               token_type := "bearer" |}
  end.

Definition confirmed_email (token : string) : M string :=
  email <- lift (services.get_email_from_token auth_service token) ;;
  user <- repositories_users.get_user_by_email email ;;
  match user with
  | None =>
      raise (new_HTTPException [("status_code", KwInt HTTP_400_BAD_REQUEST);
                                ("detail", KwStr "Verification error")])
  | Some user =>
      if u_confirmed user then ret "Your email is already confirmed"
      else
        repositories_users.confirmed_email email ;;;
        ret "Email confirmed"
  end.

Definition request_email (email : string) (background_tasks : BackgroundTasks)
           (base_url : string) : M (string * BackgroundTasks) :=
  user <- repositories_users.get_user_by_email email ;;
  confirmed <- getattr user "confirmed" u_confirmed ;;
  if confirmed then ret ("Your email is already confirmed", background_tasks)
  else
    let background_tasks :=
      match user with
      | Some u => add_task background_tasks (send_email_task (u_email u) (u_username u) base_url)
      | None => background_tasks
      end in
    ret ("Check your email for confirmation.", background_tasks).

(** The second [request_email] of the module, routed at [/{username}]:
    it prints and serves the tracking image without touching the session. *)
Definition request_email_opened (username : string) : M string :=
  ret "src/static/open_check.png".

End Handlers.

End routes_auth.

(** ** src/routes/contacts.py *)

Module routes_contacts.
Import db.

Definition access_to_route_all : User -> Result unit :=
  services.RoleAccess [Role.admin; Role.moderator].

Definition NOT_FOUND : Exn :=
  new_HTTPException [("status_code", KwInt HTTP_404_NOT_FOUND); ("detail", KwStr "NOT FOUND!")].

Definition no_attribute (name : string) : Exn :=
  AttributeError ("module 'src.repository.contacts' has no attribute '" ++ name ++ "'").

Definition get_contacts (limit offset : nat) (user : User) : M (list Contact) :=
  repository_contacts.get_contacts limit offset user.

Definition get_all_todos (limit offset : nat) (user : User) : M (list Contact) :=
  lift (access_to_route_all user) ;;;
  repository_contacts.get_all_contacts limit offset.

Definition get_contact (contact_id : Z) (user : User) : M Contact :=
  contact <- repository_contacts.get_contact contact_id user ;;
  match contact with
  | None => raise NOT_FOUND
  | Some c => ret c
  end.

(** [contact = await repository_contacts.create_contact(body, db, user)]:
    the name is looked up in the repository module when the call runs. *)
Definition create_contact (body : ContactSchema) (user : User) : M Contact :=
  match repository_contacts.getattr "create_contact" with
  | Some (repository_contacts.Create f) => f body user
  | Some _ => raise (TypeError "unexpected arguments")
  | None => raise (no_attribute "create_contact")
  end.

Definition update_contact (body : ContactSchema) (contact_id : Z) (user : User) : M Contact :=
  contact <- repository_contacts.update_contact contact_id body user ;;
  match contact with
  | None => raise NOT_FOUND
  | Some c => ret c
  end.

Definition delete_contact (contact_id : Z) (user : User) : M Contact :=
  contact <- repository_contacts.remove_contact contact_id user ;;
  match contact with
  | None => raise NOT_FOUND
  | Some c => ret c
  end.

End routes_contacts.

(** ** The application: routing table and request life cycle *)

Module app.
Import db.

(** One constructor per route of the two routers.  The [user] of a contact
    route is the caller resolved from the bearer access token. *)
Inductive Request : Type :=
| POST_auth_signup (body : UserSchema) (base_url : string)
| POST_auth_login (username password : string)
| GET_auth_refresh_token (credentials : string)
| GET_auth_confirmed_email (token : string)
| POST_auth_request_email (email base_url : string)
| GET_auth_username (username : string)
| GET_contacts (limit offset : nat) (user : User)
| GET_contacts_all (limit offset : nat) (user : User)
| GET_contacts_id (contact_id : Z) (user : User)
| POST_contacts (body : ContactSchema) (user : User)
| PUT_contacts_id (contact_id : Z) (body : ContactSchema) (user : User)
| DELETE_contacts_id (contact_id : Z) (user : User).

Inductive Body : Type :=
| JsonUser (u : User)
| JsonTokens (t : TokenSchema)
| JsonMessage (m : string)
| JsonContacts (cs : list Contact)
| JsonContact (c : Contact)
| FileResponse (path : string).

Definition fmap {A B : Type} (f : A -> B) (m : M A) : M B :=
  a <- m ;; ret (f a).

(** [status_code=] of the route decorator; 200 when none is given. *)
Definition success_status (req : Request) : Z :=
  match req with
  | POST_auth_signup _ _ | POST_contacts _ _ => HTTP_201_CREATED
  | _ => HTTP_200_OK
  end.

Section Serve.
Variable auth_service : services.Auth.
Variable get_image : string -> Result string.

Definition handle (req : Request) (bt : BackgroundTasks) : M (Body * BackgroundTasks) :=
  match req with
  | POST_auth_signup body base_url =>
      fmap (fun r => (JsonUser (fst r), snd r))
           (routes_auth.signup auth_service get_image body bt base_url)
  | POST_auth_login username password =>
      fmap (fun t => (JsonTokens t, bt)) (routes_auth.login auth_service username password)
  | GET_auth_refresh_token credentials =>
      fmap (fun t => (JsonTokens t, bt)) (routes_auth.refresh_token auth_service credentials)
  | GET_auth_confirmed_email token =>
      fmap (fun m => (JsonMessage m, bt)) (routes_auth.confirmed_email auth_service token)
  | POST_auth_request_email email base_url =>
      fmap (fun r => (JsonMessage (fst r), snd r)) (routes_auth.request_email email bt base_url)
  | GET_auth_username username =>
      fmap (fun p => (FileResponse p, bt)) (routes_auth.request_email_opened username)
  | GET_contacts limit offset user =>
      fmap (fun cs => (JsonContacts cs, bt)) (routes_contacts.get_contacts limit offset user)
  | GET_contacts_all limit offset user =>
      fmap (fun cs => (JsonContacts cs, bt)) (routes_contacts.get_all_todos limit offset user)
  | GET_contacts_id contact_id user =>
      fmap (fun c => (JsonContact c, bt)) (routes_contacts.get_contact contact_id user)
  | POST_contacts body user =>
      fmap (fun c => (JsonContact c, bt)) (routes_contacts.create_contact body user)
  | PUT_contacts_id contact_id body user =>
      fmap (fun c => (JsonContact c, bt)) (routes_contacts.update_contact body contact_id user)
  | DELETE_contacts_id contact_id user =>
      fmap (fun c => (JsonContact c, bt)) (routes_contacts.delete_contact contact_id user)
  end.

(** A request runs its handler on the session that [get_db] yields. *)
Definition serve (req : Request) (data : Store) : ScopeResult (Body * BackgroundTasks) :=
  get_db (handle req []) data.

(** The durable content after a sequence of requests. *)
Fixpoint run (reqs : list Request) (data : Store) : Store :=
  match reqs with
  | [] => data
  | req :: rest => run rest (database (serve req data))
  end.

(** Background tasks run once the response has been produced. *)
Definition run_task (send_message : services.Transport) (t : Task) : Result unit * list Exn :=
  match t with
  | send_email_task email username host =>
      services.send_email auth_service send_message email username host
  end.

End Serve.

(** User [uid] has an account whose [confirmed] flag is set. *)
Definition is_confirmed (uid : Z) (data : Store) : bool :=
  existsb (fun u => (u_id u =? uid) && u_confirmed u) (users data).

End app.

(** * Predicates of the statements *)

Import db.

(** Rows after an attribute assignment has been written back. *)
Definition put (user_id : Z) (assignment : User -> User) (rows : list User) : list User :=
  map (fun x => if u_id x =? user_id then assignment x else x) rows.

(** The account that [signup] stores for [body]. *)
Definition signed_up (auth : services.Auth) (get_image : string -> Result string)
           (body : UserSchema) (data : Store) : User :=
  repositories_users.new_user
    (next_id (map u_id (users data)))
    (repositories_users.lookup_avatar get_image (s_email body))
    {| s_username := s_username body; s_email := s_email body;
       s_password := services.get_password_hash auth (s_password body) |}.

(** [m] keeps the session property [I], whether it returns or raises. *)
Definition preserves {A : Type} (I : Session -> Prop) (m : M A) : Prop :=
  forall s, I s -> I (snd (m s)).

(** Nothing is left pending: what the session sees is what is durable. *)
Definition synced (s : Session) : Prop := committed s = working s.

(** Account [uid] is confirmed, both durably and as the session sees it. *)
Definition confirmed_in_session (uid : Z) (s : Session) : Prop :=
  app.is_confirmed uid (committed s) = true /\ app.is_confirmed uid (working s) = true.


(** The requests routed to src/routes/contacts.py. *)
Definition contacts_route (req : app.Request) : bool :=
  match req with
  | app.GET_contacts _ _ _ | app.GET_contacts_all _ _ _ | app.GET_contacts_id _ _
  | app.POST_contacts _ _ | app.PUT_contacts_id _ _ _ | app.DELETE_contacts_id _ _ => true
  | _ => false
  end.

(** The requests whose handlers only query. *)
Definition reads_only (req : app.Request) : bool :=
  match req with
  | app.GET_contacts _ _ _ | app.GET_contacts_all _ _ _ | app.GET_contacts_id _ _
  | app.POST_auth_request_email _ _ | app.GET_auth_username _ => true
  | _ => false
  end.

(** The one request whose handler writes before it rejects. *)
Definition is_refresh (req : app.Request) : bool :=
  match req with
  | app.GET_auth_refresh_token _ => true
  | _ => false
  end.

(** No two accounts of the session's view share an email. *)
Definition emails_unique (s : Session) : Prop :=
  NoDup (map u_email (users (working s))).

(** ** Sample data used to run the handlers *)

Module Sample.

(** The subject of a toy token: everything before the first [#]. *)
Fixpoint subject (t : string) : string :=
  match t with
  | EmptyString => EmptyString
  | String c rest => if Ascii.eqb c "#"%char then EmptyString else String c (subject rest)
  end.

Definition sub_of (data : list (string * string)) : string :=
  match data with
  | (_, v) :: _ => v
  | [] => ""
  end.

Definition auth : services.Auth :=
  {| services.get_password_hash := fun p => "hash:" ++ p;
     services.verify_password := fun p h => Ok (String.eqb ("hash:" ++ p) h);
     services.create_access_token := fun d => sub_of d ++ "#access";
     services.create_refresh_token := fun d => sub_of d ++ "#refresh";
     services.decode_refresh_token := fun t => Ok (subject t);
     services.create_email_token := fun d => sub_of d ++ "#email";
     services.get_email_from_token := fun t => Ok (subject t) |}.

(** The same service with a password check that faults. *)
Definition auth_faulty : services.Auth :=
  {| services.get_password_hash := services.get_password_hash auth;
     services.verify_password := fun _ _ => Raise (Exception "hash could not be identified");
     services.create_access_token := services.create_access_token auth;
     services.create_refresh_token := services.create_refresh_token auth;
     services.decode_refresh_token := services.decode_refresh_token auth;
     services.create_email_token := services.create_email_token auth;
     services.get_email_from_token := services.get_email_from_token auth |}.

Definition get_image (email : string) : Result string :=
  Raise (Exception "avatar service unreachable").

(** A mail transport that cannot connect. *)
Definition send_message : services.Transport :=
  fun _ _ => Raise (ConnectionErrors "connection refused").

Definition alice : User :=
  {| u_id := 1; u_username := "alice"; u_email := "a@x.com"; u_password := "hash:pw";
     u_avatar := None; u_refresh_token := Some "a@x.com#old"; u_confirmed := true;
     u_role := Role.user |}.

Definition bob : User :=
  {| u_id := 2; u_username := "bob"; u_email := "b@x.com"; u_password := "hash:pw2";
     u_avatar := None; u_refresh_token := None; u_confirmed := false;
     u_role := Role.user |}.

Definition jd : Contact :=
  {| c_id := 1; c_first_name := "J"; c_last_name := "D"; c_email := "j@d.com";
     c_phone_number := "123"; c_birthday := "2000-01-01"; c_data := None;
     c_user_id := 1 |}.

Definition body : ContactSchema :=
  {| b_first_name := "K"; b_last_name := "E"; b_email := "k@e.com";
     b_phone_number := "456"; b_birthday := "1999-12-31"; b_data := None |}.

Definition carol : UserSchema :=
  {| s_username := "carol"; s_email := "c@x.com"; s_password := "pw3" |}.

Definition data : Store := {| users := [alice; bob]; contacts := [jd] |}.

Definition s0 : Session := open_session data.

End Sample.

(** * Properties *)

(** ** Tables and queries *)

Lemma filter_nil_iff {A : Type} (p : A -> bool) (l : list A) :
  (forall x, In x l -> p x = false) -> filter p l = [].
Proof.
  induction l as [| a l IH]; intros H; simpl; [reflexivity |].
  rewrite (H a (or_introl eq_refl)).
  apply IH. intros x Hx. apply H. right. exact Hx.
Qed.

(** A primary key identifies its row. *)
Lemma key_injective {A : Type} (key : A -> Z) (l : list A) (x y : A) :
  NoDup (map key l) -> In x l -> In y l -> key x = key y -> x = y.
Proof.
  induction l as [| a l IH]; simpl; intros ND Hx Hy E; [contradiction |].
  inversion ND as [| k ks Hnotin ND']; subst.
  destruct Hx as [-> | Hx], Hy as [-> | Hy]; try reflexivity.
  - exfalso. apply Hnotin. rewrite E. apply in_map. exact Hy.
  - exfalso. apply Hnotin. rewrite <- E. apply in_map. exact Hx.
  - apply IH; assumption.
Qed.

Lemma page_covers {A : Type} (rows : list A) (i limit offset : nat) (x : A) :
  nth_error rows i = Some x ->
  (offset <= i < offset + limit)%nat ->
  In x (offset_limit offset limit rows).
Proof.
  intros Hi [Hlo Hhi]. unfold offset_limit.
  apply nth_error_In with (n := (i - offset)%nat).
  rewrite nth_error_firstn.
  replace (i - offset <? limit)%nat with true by (symmetry; apply Nat.ltb_lt; lia).
  rewrite nth_error_skipn.
  replace (offset + (i - offset))%nat with i by lia.
  exact Hi.
Qed.

(** The scoped query of the three single-contact operations finds nothing
    when the caller is not the owner. *)
Lemma foreign_query_empty (rows : list Contact) (c : Contact) (A B : User) :
  In c rows ->
  NoDup (map c_id rows) ->
  c_user_id c = u_id A ->
  u_id B <> u_id A ->
  repository_contacts.filter_by_id_user (c_id c) B rows = [].
Proof.
  intros Hin ND Hown Hneq.
  apply filter_nil_iff. intros x Hx.
  destruct (c_id x =? c_id c) eqn:E; simpl; [| reflexivity].
  apply Z.eqb_eq in E.
  assert (x = c) by (eapply key_injective; eauto). subst x.
  unfold repository_contacts.owned_by. apply Z.eqb_neq. congruence.
Qed.

(** C1.  A contact owned by user A is out of reach of any other user B:
    [get_contact], [update_contact] and [remove_contact] called by B with the
    contact's id return none and leave the session (hence the contact)
    as it was, the three routes answer 404, and the row still shows in every
    page of the administrative listing [get_all_contacts] whose window
    covers it. *)
Theorem owner_isolation :
  forall (s : Session) (c : Contact) (A B : User) (body : ContactSchema),
    In c (contacts (working s)) ->
    NoDup (map c_id (contacts (working s))) ->
    c_user_id c = u_id A ->
    u_id B <> u_id A ->
    repository_contacts.get_contact (c_id c) B s = (Ok None, s) /\
    repository_contacts.update_contact (c_id c) body B s = (Ok None, s) /\
    repository_contacts.remove_contact (c_id c) B s = (Ok None, s) /\
    routes_contacts.get_contact (c_id c) B s
      = (Raise (HTTPException HTTP_404_NOT_FOUND "NOT FOUND!"), s) /\
    routes_contacts.update_contact body (c_id c) B s
      = (Raise (HTTPException HTTP_404_NOT_FOUND "NOT FOUND!"), s) /\
    routes_contacts.delete_contact (c_id c) B s
      = (Raise (HTTPException HTTP_404_NOT_FOUND "NOT FOUND!"), s) /\
    exists i, nth_error (contacts (working s)) i = Some c /\
      forall limit offset, (offset <= i < offset + limit)%nat ->
        exists page, repository_contacts.get_all_contacts limit offset s = (Ok page, s)
                     /\ In c page.
Proof.
  intros s c A B body Hin ND Hown Hneq.
  pose proof (foreign_query_empty _ c A B Hin ND Hown Hneq) as Hq.
  assert (Hget : repository_contacts.get_contact (c_id c) B s = (Ok None, s)).
  { unfold repository_contacts.get_contact. rewrite Hq. reflexivity. }
  assert (Hupd : repository_contacts.update_contact (c_id c) body B s = (Ok None, s)).
  { unfold repository_contacts.update_contact, bind. rewrite Hget. reflexivity. }
  assert (Hdel : repository_contacts.remove_contact (c_id c) B s = (Ok None, s)).
  { unfold repository_contacts.remove_contact, bind. rewrite Hget. reflexivity. }
  repeat split; try assumption.
  - unfold routes_contacts.get_contact, bind. rewrite Hget. reflexivity.
  - unfold routes_contacts.update_contact, bind. rewrite Hupd. reflexivity.
  - unfold routes_contacts.delete_contact, bind. rewrite Hdel. reflexivity.
  - destruct (In_nth_error _ _ Hin) as [i Hi].
    exists i. split; [exact Hi |].
    intros limit offset Hwin.
    eexists. split; [reflexivity |].
    eapply page_covers; eauto.
Qed.

(** ** The user directory *)

Lemma filter_unique (l : list User) (u : User) :
  NoDup (map u_email l) -> In u l ->
  filter (fun x => String.eqb (u_email x) (u_email u)) l = [u].
Proof.
  induction l as [| a l IH]; simpl; intros ND Hin; [contradiction |].
  inversion ND as [| k ks Hnotin ND']; subst.
  destruct Hin as [-> | Hin].
  - rewrite String.eqb_refl. f_equal.
    apply filter_nil_iff. intros x Hx.
    apply String.eqb_neq. intros E. apply Hnotin. rewrite <- E. apply in_map. exact Hx.
  - replace (String.eqb (u_email a) (u_email u)) with false.
    + apply IH; assumption.
    + symmetry. apply String.eqb_neq. intros E. apply Hnotin. rewrite E. apply in_map. exact Hin.
Qed.

Lemma lookup_found (s : Session) (u : User) :
  NoDup (map u_email (users (working s))) -> In u (users (working s)) ->
  repositories_users.get_user_by_email (u_email u) s = (Ok (Some u), s).
Proof.
  intros ND Hin. unfold repositories_users.get_user_by_email.
  rewrite (filter_unique _ u ND Hin). reflexivity.
Qed.

Lemma lookup_absent (s : Session) (email : string) :
  (forall x, In x (users (working s)) -> u_email x <> email) ->
  repositories_users.get_user_by_email email s = (Ok None, s).
Proof.
  intros H. unfold repositories_users.get_user_by_email.
  rewrite filter_nil_iff; [reflexivity |].
  intros x Hx. apply String.eqb_neq. apply H. exact Hx.
Qed.

Lemma put_emails (rows : list User) (user_id : Z) (f : User -> User) :
  (forall x, u_email (f x) = u_email x) ->
  map u_email (put user_id f rows) = map u_email rows.
Proof.
  intros Hem. unfold put. rewrite map_map.
  apply map_ext. intros x.
  destruct (u_id x =? user_id); [apply Hem | reflexivity].
Qed.

Lemma put_in (rows : list User) (u : User) (f : User -> User) :
  In u rows -> In (f u) (put (u_id u) f rows).
Proof.
  intros Hin. unfold put.
  apply in_map_iff. exists u. split; [| exact Hin].
  rewrite Z.eqb_refl. reflexivity.
Qed.

(** An assignment that keeps the email, written back and committed: the row
    read back by email is the assigned one, and the change is durable. *)
Lemma assignment_stored (s : Session) (u : User) (f : User -> User) :
  (forall x, u_email (f x) = u_email x) ->
  NoDup (map u_email (users (working s))) -> In u (users (working s)) ->
  exists s',
    (repositories_users.write_back (u_id u) f ;;; commit) s = (Ok tt, s') /\
    repositories_users.get_user_by_email (u_email u) s' = (Ok (Some (f u)), s') /\
    committed s' = working s' /\
    NoDup (map u_email (users (working s'))) /\
    contacts (working s') = contacts (working s) /\
    log s' = (log s ++ [Commit])%list.
Proof.
  intros Hem ND Hin.
  set (w' := {| users := put (u_id u) f (users (working s)); contacts := contacts (working s) |}).
  exists {| committed := w'; working := w'; log := (log s ++ [Commit])%list |}.
  assert (ND' : NoDup (map u_email (put (u_id u) f (users (working s)))))
    by (rewrite put_emails; auto).
  split; [reflexivity |].
  split.
  - rewrite <- (Hem u).
    apply lookup_found; subst w'; cbn [working users].
    + exact ND'.
    + apply put_in. exact Hin.
  - subst w'. cbn [working committed users contacts log].
    repeat split; auto.
Qed.

Lemma update_token_stored (s : Session) (u : User) (token : option string) :
  NoDup (map u_email (users (working s))) -> In u (users (working s)) ->
  exists s',
    repositories_users.update_token u token s = (Ok tt, s') /\
    repositories_users.get_user_by_email (u_email u) s'
      = (Ok (Some (repositories_users.set_refresh_token u token)), s') /\
    committed s' = working s'.
Proof.
  intros ND Hin.
  destruct (assignment_stored s u (fun row => repositories_users.set_refresh_token row token))
    as (s' & Hrun & Hlook & Hsync & _); auto.
  exists s'. auto.
Qed.

(** ** Login *)

Lemma login_bad_password (auth : services.Auth) (s : Session) (u : User) (password : string) :
  NoDup (map u_email (users (working s))) -> In u (users (working s)) ->
  u_confirmed u = true ->
  services.verify_password auth password (u_password u) = Ok false ->
  routes_auth.login auth (u_email u) password s
  = (Raise (TypeError "__init__() got an unexpected keyword argument"), s).
Proof.
  intros ND Hin Hc Hv.
  unfold routes_auth.login, bind.
  rewrite (lookup_found s u ND Hin), Hc. cbn [negb].
  unfold lift. rewrite Hv. reflexivity.
Qed.

(** C3.  The three checks of [login] run in the order email lookup,
    confirmation flag, password verification: an unknown email is rejected as
    such; an existing account with [confirmed = false] is rejected with 401
    "Email not confirmed" whatever the password and whatever
    [verify_password] would answer (or raise); and for a confirmed account a
    fault of [verify_password] is what the handler raises, so the password is
    looked at only then. *)
Theorem login_unconfirmed_rejected :
  forall (auth : services.Auth) (s : Session) (password : string),
    NoDup (map u_email (users (working s))) ->
    (forall email, (forall x, In x (users (working s)) -> u_email x <> email) ->
       routes_auth.login auth email password s
       = (Raise (HTTPException HTTP_401_UNAUTHORIZED "Invalid email"), s)) /\
    (forall u, In u (users (working s)) -> u_confirmed u = false ->
       routes_auth.login auth (u_email u) password s
       = (Raise (HTTPException HTTP_401_UNAUTHORIZED "Email not confirmed"), s)) /\
    (forall u e, In u (users (working s)) -> u_confirmed u = true ->
       services.verify_password auth password (u_password u) = Raise e ->
       routes_auth.login auth (u_email u) password s = (Raise e, s)).
Proof.
  intros auth s password ND. repeat split.
  - intros email Habs. unfold routes_auth.login, bind.
    rewrite (lookup_absent s email Habs). reflexivity.
  - intros u Hin Hc. unfold routes_auth.login, bind.
    rewrite (lookup_found s u ND Hin), Hc. reflexivity.
  - intros u e Hin Hc Hv. unfold routes_auth.login, bind.
    rewrite (lookup_found s u ND Hin), Hc. cbn [negb].
    unfold lift. rewrite Hv. reflexivity.
Qed.

(** C4.  When the account exists, is confirmed and the password verifies,
    [login] succeeds, and the refresh token in its response is the value
    that the account's [refresh_token] column holds afterwards, durably,
    whatever it held before. *)
Theorem login_refresh_token_round_trip :
  forall (auth : services.Auth) (s : Session) (u : User) (password : string),
    NoDup (map u_email (users (working s))) ->
    In u (users (working s)) ->
    u_confirmed u = true ->
    services.verify_password auth password (u_password u) = Ok true ->
    exists (tokens : TokenSchema) (s' : Session) (u' : User),
      routes_auth.login auth (u_email u) password s = (Ok tokens, s') /\
      repositories_users.get_user_by_email (u_email u) s' = (Ok (Some u'), s') /\
      u_refresh_token u' = Some (refresh_token_field tokens) /\
      u_id u' = u_id u /\
      committed s' = working s'.
Proof.
  intros auth s u password Hk Hin Hc Hv.
  set (rt := services.create_refresh_token auth [("sub", u_email u)]).
  destruct (update_token_stored s u (Some rt) Hk Hin)
    as (s' & Hupd & Hlook & Hsync).
  eexists _, s', (repositories_users.set_refresh_token u (Some rt)).
  split.
  - unfold routes_auth.login, bind.
    rewrite (lookup_found s u Hk Hin), Hc. cbn [negb].
    unfold lift. rewrite Hv. cbn [negb].
    fold rt. rewrite Hupd. reflexivity.
  - repeat split; auto.
Qed.

(** ** Refresh *)

Lemma token_differs_true (stored : option string) (token : string) :
  stored <> Some token -> routes_auth.token_differs stored token = true.
Proof.
  intros H. destruct stored as [t |]; simpl; [| reflexivity].
  apply negb_true_iff, String.eqb_neq. congruence.
Qed.

(** C2.  A presented refresh token that decodes to the email of an account
    but is not the string stored for that account makes [refresh_token]
    raise [HTTPException] 401 Unauthorized "Invalid refresh token", and
    leaves the account's stored [refresh_token] null, durably. *)
Theorem refresh_mismatch_kills_session :
  forall (auth : services.Auth) (s : Session) (u : User) (token : string),
    NoDup (map u_email (users (working s))) ->
    In u (users (working s)) ->
    services.decode_refresh_token auth token = Ok (u_email u) ->
    u_refresh_token u <> Some token ->
    exists (s' : Session) (u' : User),
      routes_auth.refresh_token auth token s
      = (Raise (HTTPException HTTP_401_UNAUTHORIZED "Invalid refresh token"), s') /\
      repositories_users.get_user_by_email (u_email u) s' = (Ok (Some u'), s') /\
      u_refresh_token u' = None /\
      u_id u' = u_id u /\
      committed s' = working s'.
Proof.
  intros auth s u token Hk Hin Hdec Hneq.
  destruct (update_token_stored s u None Hk Hin) as (s' & Hupd & Hlook & Hsync).
  assert (Hrun : routes_auth.refresh_token auth token s
                 = (Raise (HTTPException HTTP_401_UNAUTHORIZED "Invalid refresh token"), s')).
  { unfold routes_auth.refresh_token, bind, lift.
    rewrite Hdec, (lookup_found s u Hk Hin).
    rewrite (token_differs_true _ _ Hneq), Hupd. reflexivity. }
  exists s', (repositories_users.set_refresh_token u None).
  repeat split; auto.
Qed.

(** ** Requesting the confirmation email again *)

(** C10.  When no account has the submitted email, the lookup of
    [request_email] returns none, the handler reads [confirmed] on it before
    testing it, and the request faults with [AttributeError] (a server
    error) instead of answering "Check your email for confirmation.". *)
Theorem request_email_unknown_faults :
  forall (s : Session) (email base_url : string) (bt : BackgroundTasks),
    (forall x, In x (users (working s)) -> u_email x <> email) ->
    repositories_users.get_user_by_email email s = (Ok None, s) /\
    routes_auth.request_email email bt base_url s
    = (Raise (AttributeError "'NoneType' object has no attribute 'confirmed'"), s) /\
    response_status HTTP_200_OK (fst (routes_auth.request_email email bt base_url s))
    = HTTP_500_INTERNAL_SERVER_ERROR /\
    fst (routes_auth.request_email email bt base_url s)
    <> Ok ("Check your email for confirmation.", bt).
Proof.
  intros s email base_url bt Habs.
  pose proof (lookup_absent s email Habs) as Hl.
  assert (Hrun : routes_auth.request_email email bt base_url s
                 = (Raise (AttributeError "'NoneType' object has no attribute 'confirmed'"), s)).
  { unfold routes_auth.request_email, bind. rewrite Hl. reflexivity. }
  rewrite Hrun. repeat split; auto. discriminate.
Qed.

(** ** Signup *)

Lemma next_id_above (ids : list Z) (x : Z) : In x ids -> x < next_id ids.
Proof.
  unfold next_id. induction ids as [| a ids IH]; simpl; [contradiction |].
  intros [-> | Hin]; [lia |]. specialize (IH Hin). lia.
Qed.

Lemma find_appended {A : Type} (key : A -> Z) (l : list A) (n : A) :
  (forall x, In x l -> key x <> key n) ->
  find (fun x => key x =? key n) (l ++ [n]) = Some n.
Proof.
  induction l as [| a l IH]; simpl; intros H.
  - rewrite Z.eqb_refl. reflexivity.
  - replace (key a =? key n) with false.
    + apply IH. intros x Hx. apply H. right. exact Hx.
    + symmetry. apply Z.eqb_neq. apply H. left. reflexivity.
Qed.

Lemma create_user_stores (get_image : string -> Result string) (body : UserSchema) (s : Session) :
  let u := repositories_users.new_user (next_id (map u_id (users (working s))))
             (repositories_users.lookup_avatar get_image (s_email body)) body in
  let w' := {| users := (users (working s) ++ [u])%list; contacts := contacts (working s) |} in
  repositories_users.create_user get_image body s
  = (Ok u, {| committed := w'; working := w'; log := (log s ++ [Commit])%list |}).
Proof.
  intros u w'.
  unfold repositories_users.create_user, bind, repositories_users.add, commit,
    repositories_users.refresh.
  cbn [working users committed log contacts]. fold u.
  rewrite (find_appended u_id).
  - reflexivity.
  - intros x Hx. cbn [u repositories_users.new_user u_id].
    pose proof (next_id_above (map u_id (users (working s))) (u_id x) (in_map u_id _ _ Hx)).
    lia.
Qed.

Lemma signup_creates (auth : services.Auth) (get_image : string -> Result string)
      (s : Session) (body : UserSchema) (bt : BackgroundTasks) (base_url : string) :
  (forall x, In x (users (working s)) -> u_email x <> s_email body) ->
  let u := signed_up auth get_image body (working s) in
  let w' := {| users := (users (working s) ++ [u])%list; contacts := contacts (working s) |} in
  routes_auth.signup auth get_image body bt base_url s
  = (Ok (u, add_task bt (send_email_task (s_email body) (s_username body) base_url)),
     {| committed := w'; working := w'; log := (log s ++ [Commit])%list |}).
Proof.
  intros Habs u w'.
  unfold routes_auth.signup, bind.
  rewrite (lookup_absent s _ Habs).
  rewrite create_user_stores. reflexivity.
Qed.

(** C7.  [signup] with an email that an account already has is rejected with
    409 Conflict and changes nothing; with a new email it stores, durably,
    one more account that carries the hashed password and
    [confirmed = false], returns it (the route's status is 201), and only
    queues the confirmation email: the mail is sent by the queued task after
    the response, and a transport failure there is printed and absorbed. *)
Theorem signup_protocol :
  forall (auth : services.Auth) (get_image : string -> Result string)
         (s : Session) (body : UserSchema) (bt : BackgroundTasks) (base_url : string),
    NoDup (map u_email (users (working s))) ->
    (forall u, In u (users (working s)) -> u_email u = s_email body ->
       routes_auth.signup auth get_image body bt base_url s
       = (Raise (HTTPException HTTP_409_CONFLICT "Account already exists"), s)) /\
    ((forall x, In x (users (working s)) -> u_email x <> s_email body) ->
     exists (new_user : User) (s' : Session),
       let task := send_email_task (s_email body) (s_username body) base_url in
       routes_auth.signup auth get_image body bt base_url s
       = (Ok (new_user, add_task bt task), s') /\
       response_status (app.success_status (app.POST_auth_signup body base_url))
                       (fst (routes_auth.signup auth get_image body bt base_url s))
       = HTTP_201_CREATED /\
       u_email new_user = s_email body /\
       u_password new_user = services.get_password_hash auth (s_password body) /\
       u_confirmed new_user = false /\
       users (working s') = (users (working s) ++ [new_user])%list /\
       committed s' = working s' /\
       forall (send_message : services.Transport) (m : string),
         (forall message template, send_message message template = Raise (ConnectionErrors m)) ->
         app.run_task auth send_message task = (Ok tt, [ConnectionErrors m])).
Proof.
  intros auth get_image s body bt base_url ND. split.
  - intros u Hin Hem. unfold routes_auth.signup, bind.
    rewrite <- Hem, (lookup_found s u ND Hin). reflexivity.
  - intros Habs.
    pose proof (signup_creates auth get_image s body bt base_url Habs) as Hrun.
    cbv zeta in Hrun.
    eexists _, _. cbv zeta. rewrite Hrun.
    repeat split.
    intros send_message m Hfail.
    unfold app.run_task, services.send_email. rewrite Hfail. reflexivity.
Qed.

(** ** Session invariants across handlers *)

Section Preservation.
Variable I : Session -> Prop.

Lemma preserves_ret {A : Type} (a : A) : preserves I (ret a).
Proof. intros s H. exact H. Qed.

Lemma preserves_raise {A : Type} (e : Exn) : preserves I (@raise A e).
Proof. intros s H. exact H. Qed.

Lemma preserves_lift {A : Type} (r : Result A) : preserves I (lift r).
Proof. intros s H. exact H. Qed.

Lemma preserves_bind {A B : Type} (m : M A) (k : A -> M B) :
  preserves I m -> (forall a, preserves I (k a)) -> preserves I (bind m k).
Proof.
  intros Hm Hk s H. unfold bind.
  specialize (Hm s H).
  destruct (m s) as [[a | e] s1]; simpl in *.
  - apply Hk. exact Hm.
  - exact Hm.
Qed.

Lemma preserves_getattr {A : Type} (obj : option User) (name : string) (field : User -> A) :
  preserves I (getattr obj name field).
Proof. intros s H. destruct obj; exact H. Qed.

Lemma preserves_get_user_by_email (email : string) :
  preserves I (repositories_users.get_user_by_email email).
Proof. intros s H. exact H. Qed.

Lemma preserves_get_contacts (limit offset : nat) (user : User) :
  preserves I (repository_contacts.get_contacts limit offset user).
Proof. intros s H. exact H. Qed.

Lemma preserves_get_all_contacts (limit offset : nat) :
  preserves I (repository_contacts.get_all_contacts limit offset).
Proof. intros s H. exact H. Qed.

Lemma preserves_get_contact (contact_id : Z) (user : User) :
  preserves I (repository_contacts.get_contact contact_id user).
Proof. intros s H. exact H. Qed.

Lemma create_contact_unresolved (body : ContactSchema) (user : User) :
  routes_contacts.create_contact body user
  = raise (routes_contacts.no_attribute "create_contact").
Proof. reflexivity. Qed.

(** What is asked of the operations that write. *)
Hypothesis create_user_ok :
  forall get_image body, preserves I (repositories_users.create_user get_image body).
Hypothesis update_token_ok :
  forall user token, preserves I (repositories_users.update_token user token).
Hypothesis confirmed_email_ok :
  forall email, preserves I (repositories_users.confirmed_email email).
Hypothesis update_contact_ok :
  forall contact_id body user,
    preserves I (repository_contacts.update_contact contact_id body user).
Hypothesis remove_contact_ok :
  forall contact_id user, preserves I (repository_contacts.remove_contact contact_id user).

Ltac keep :=
  repeat (cbv zeta; intros;
          match goal with
          | |- preserves _ (bind _ _) => apply preserves_bind
          | |- preserves _ (ret _) => apply preserves_ret
          | |- preserves _ (raise _) => apply preserves_raise
          | |- preserves _ (lift _) => apply preserves_lift
          | |- preserves _ (getattr _ _ _) => apply preserves_getattr
          | |- preserves _ (repositories_users.get_user_by_email _) =>
              apply preserves_get_user_by_email
          | |- preserves _ (repositories_users.create_user _ _) => apply create_user_ok
          | |- preserves _ (repositories_users.update_token _ _) => apply update_token_ok
          | |- preserves _ (repositories_users.confirmed_email _) => apply confirmed_email_ok
          | |- preserves _ (repository_contacts.get_contacts _ _ _) =>
              apply preserves_get_contacts
          | |- preserves _ (repository_contacts.get_all_contacts _ _) =>
              apply preserves_get_all_contacts
          | |- preserves _ (repository_contacts.get_contact _ _) =>
              apply preserves_get_contact
          | |- preserves _ (repository_contacts.update_contact _ _ _) =>
              apply update_contact_ok
          | |- preserves _ (repository_contacts.remove_contact _ _) =>
              apply remove_contact_ok
          | |- preserves _ (match ?x with _ => _ end) => destruct x
          end).

Lemma handle_preserves (auth : services.Auth) (get_image : string -> Result string)
      (req : app.Request) (bt : BackgroundTasks) :
  preserves I (app.handle auth get_image req bt).
Proof.
  destruct req; unfold app.handle, app.fmap;
    try rewrite create_contact_unresolved;
    unfold routes_auth.signup, routes_auth.login, routes_auth.refresh_token,
      routes_auth.confirmed_email, routes_auth.request_email,
      routes_auth.request_email_opened, routes_contacts.get_contacts,
      routes_contacts.get_all_todos, routes_contacts.get_contact,
      routes_contacts.update_contact, routes_contacts.delete_contact;
    keep.
Qed.

End Preservation.

Ltac crack_repository :=
  unfold repositories_users.create_user, repositories_users.update_token,
    repositories_users.confirmed_email, repositories_users.get_user_by_email,
    repositories_users.write_back, repositories_users.add, repositories_users.refresh,
    repository_contacts.update_contact, repository_contacts.remove_contact,
    repository_contacts.get_contact, repository_contacts.write_back,
    repository_contacts.delete, repository_contacts.refresh,
    commit, bind, ret, raise;
  cbn [working committed users contacts log];
  repeat match goal with
         | |- context [scalar_one_or_none ?l] =>
             destruct l as [| ? [| ? ?]]; cbn [scalar_one_or_none]
         | |- context [find ?p ?l] => destruct (find p l)
         end;
  cbn [snd fst working committed users contacts log].

Lemma synced_writes :
  (forall get_image body, preserves synced (repositories_users.create_user get_image body)) /\
  (forall user token, preserves synced (repositories_users.update_token user token)) /\
  (forall email, preserves synced (repositories_users.confirmed_email email)) /\
  (forall contact_id body user,
     preserves synced (repository_contacts.update_contact contact_id body user)) /\
  (forall contact_id user,
     preserves synced (repository_contacts.remove_contact contact_id user)).
Proof.
  unfold preserves, synced.
  repeat split; intros; crack_repository; auto.
Qed.

Lemma handle_synced (auth : services.Auth) (get_image : string -> Result string)
      (req : app.Request) (bt : BackgroundTasks) :
  preserves synced (app.handle auth get_image req bt).
Proof.
  destruct synced_writes as (H1 & H2 & H3 & H4 & H5).
  apply handle_preserves; assumption.
Qed.

Lemma is_confirmed_put (uid user_id : Z) (f : User -> User) (rows : list User) :
  (forall x, u_id (f x) = u_id x) ->
  (forall x, u_confirmed x = true -> u_confirmed (f x) = true) ->
  existsb (fun u => (u_id u =? uid) && u_confirmed u) rows = true ->
  existsb (fun u => (u_id u =? uid) && u_confirmed u) (put user_id f rows) = true.
Proof.
  intros Hid Hc H.
  apply existsb_exists in H. destruct H as (x & Hin & Hx).
  apply andb_true_iff in Hx. destruct Hx as [Hx1 Hx2].
  apply existsb_exists.
  exists (if u_id x =? user_id then f x else x). split.
  - unfold put. apply in_map_iff. exists x. auto.
  - destruct (u_id x =? user_id).
    + rewrite Hid, Hx1, (Hc x Hx2). reflexivity.
    + rewrite Hx1, Hx2. reflexivity.
Qed.

Lemma is_confirmed_appended (uid : Z) (rows : list User) (u : User) :
  existsb (fun u => (u_id u =? uid) && u_confirmed u) rows = true ->
  existsb (fun u => (u_id u =? uid) && u_confirmed u) (rows ++ [u]) = true.
Proof.
  intros H. rewrite existsb_app, H. reflexivity.
Qed.

Lemma confirmed_writes (uid : Z) :
  (forall get_image body,
     preserves (confirmed_in_session uid) (repositories_users.create_user get_image body)) /\
  (forall user token,
     preserves (confirmed_in_session uid) (repositories_users.update_token user token)) /\
  (forall email,
     preserves (confirmed_in_session uid) (repositories_users.confirmed_email email)) /\
  (forall contact_id body user,
     preserves (confirmed_in_session uid)
               (repository_contacts.update_contact contact_id body user)) /\
  (forall contact_id user,
     preserves (confirmed_in_session uid)
               (repository_contacts.remove_contact contact_id user)).
Proof.
  unfold preserves, confirmed_in_session, app.is_confirmed.
  repeat split; intros; crack_repository;
    cbn [users];
    try first
        [ apply (is_confirmed_put uid _ (fun row => repositories_users.set_refresh_token row _));
          [reflexivity | intros; cbn; auto |]
        | apply (is_confirmed_put uid _ (fun row => repositories_users.set_confirmed row true));
          [reflexivity | intros; cbn; auto |]
        | apply is_confirmed_appended ];
    intuition auto.
Qed.

Lemma update_avatar_keeps_confirmed (uid : Z) (email url : string) :
  preserves (confirmed_in_session uid) (repositories_users.update_avatar email url).
Proof.
  unfold preserves, confirmed_in_session, app.is_confirmed.
  intros s [Hc Hw]. unfold repositories_users.update_avatar. crack_repository;
    try (split; assumption);
    split;
    apply (is_confirmed_put uid _ (fun row => repositories_users.set_avatar row (Some url)));
    solve [reflexivity | intros; cbn; auto | assumption].
Qed.

Lemma handle_keeps_confirmed (uid : Z) (auth : services.Auth)
      (get_image : string -> Result string) (req : app.Request) (bt : BackgroundTasks) :
  preserves (confirmed_in_session uid) (app.handle auth get_image req bt).
Proof.
  destruct (confirmed_writes uid) as (H1 & H2 & H3 & H4 & H5).
  apply handle_preserves; assumption.
Qed.

(** ** Account confirmation *)

Lemma serve_keeps_confirmed (auth : services.Auth) (get_image : string -> Result string)
      (req : app.Request) (data : Store) (uid : Z) :
  app.is_confirmed uid data = true ->
  app.is_confirmed uid (database (app.serve auth get_image req data)) = true.
Proof.
  intros H.
  assert (Hinv : confirmed_in_session uid (open_session data)) by (split; exact H).
  apply (handle_keeps_confirmed uid auth get_image req []) in Hinv.
  unfold app.serve, get_db, session.
  destruct (app.handle auth get_image req [] (open_session data)) as [[a | e] s1];
    cbn [database close rollback committed snd] in *; apply Hinv.
Qed.

Lemma confirm_valid (auth : services.Auth) (s : Session) (u : User) (token : string) :
  NoDup (map u_email (users (working s))) -> In u (users (working s)) ->
  services.get_email_from_token auth token = Ok (u_email u) ->
  u_confirmed u = false ->
  exists s',
    routes_auth.confirmed_email auth token s = (Ok "Email confirmed", s') /\
    repositories_users.get_user_by_email (u_email u) s'
    = (Ok (Some (repositories_users.set_confirmed u true)), s') /\
    committed s' = working s'.
Proof.
  intros ND Hin Hdec Hc.
  destruct (assignment_stored s u (fun row => repositories_users.set_confirmed row true))
    as (s' & Hrun & Hlook & Hsync & _); auto.
  exists s'. repeat split; auto.
  unfold routes_auth.confirmed_email, repositories_users.confirmed_email.
  unfold bind at 1 2 3. unfold lift. rewrite Hdec.
  rewrite (lookup_found s u ND Hin), Hc.
  unfold bind at 1. rewrite (lookup_found s u ND Hin).
  rewrite Hrun. reflexivity.
Qed.

(** C6.  The confirmation flag of an account: false in the account that
    [signup] stores; true, durably, after [confirmed_email] is given a token
    whose subject is the email of an unconfirmed account; left alone, with
    the whole session untouched and the already-confirmed message returned,
    when the account is confirmed already; and never back to false: an
    account that is confirmed stays confirmed through any sequence of
    requests, nor through [update_avatar]. *)
Theorem confirmation_state_machine :
  forall (auth : services.Auth) (get_image : string -> Result string),
    (forall s body bt base_url,
       (forall x, In x (users (working s)) -> u_email x <> s_email body) ->
       exists new_user bt' s',
         routes_auth.signup auth get_image body bt base_url s = (Ok (new_user, bt'), s') /\
         In new_user (users (working s')) /\
         u_email new_user = s_email body /\
         u_confirmed new_user = false) /\
    (forall s u token,
       NoDup (map u_email (users (working s))) -> In u (users (working s)) ->
       services.get_email_from_token auth token = Ok (u_email u) ->
       (u_confirmed u = false ->
        exists s' u',
          routes_auth.confirmed_email auth token s = (Ok "Email confirmed", s') /\
          repositories_users.get_user_by_email (u_email u) s' = (Ok (Some u'), s') /\
          u_id u' = u_id u /\
          u_confirmed u' = true /\
          committed s' = working s') /\
       (u_confirmed u = true ->
        routes_auth.confirmed_email auth token s
        = (Ok "Your email is already confirmed", s))) /\
    (forall reqs data uid,
       app.is_confirmed uid data = true ->
       app.is_confirmed uid (app.run auth get_image reqs data) = true) /\
    (forall uid email url s,
       confirmed_in_session uid s ->
       confirmed_in_session uid (snd (repositories_users.update_avatar email url s))).
Proof.
  intros auth get_image. split; [| split; [| split]].
  - intros s body bt base_url Habs.
    pose proof (signup_creates auth get_image s body bt base_url Habs) as Hrun.
    cbv zeta in Hrun.
    eexists _, _, _. split; [exact Hrun |].
    cbn [working users]. repeat split.
    apply in_or_app. right. left. reflexivity.
  - intros s u token ND Hin Hdec. split; intros Hc.
    + destruct (confirm_valid auth s u token) as (s' & Hrun & Hlook & Hsync); auto.
      exists s', (repositories_users.set_confirmed u true). repeat split; auto.
    + unfold routes_auth.confirmed_email, bind, lift.
      rewrite Hdec, (lookup_found s u ND Hin), Hc. reflexivity.
  - intros reqs. induction reqs as [| req rest IH]; intros data uid Hc; simpl.
    + exact Hc.
    + apply IH. apply serve_keeps_confirmed. exact Hc.
  - intros uid email url s. apply update_avatar_keeps_confirmed.
Qed.

(** ** The session scope *)

Lemma session_outcome {A : Type} (block : M A) (data : Store) :
  let r := session (Some tt) block data in
  let end_state := snd (block (open_session data)) in
  propagated r = None /\
  database r = committed end_state /\
  match fst (block (open_session data)) with
  | Ok a => yielded r = Some a /\ printed r = [] /\
            events r = (log end_state ++ [Close])%list
  | Raise e => yielded r = None /\ printed r = [e] /\
               events r = (log end_state ++ [Rollback; Close])%list
  end.
Proof.
  unfold session.
  destruct (block (open_session data)) as [[a | e] s1]; cbn; repeat split.
  rewrite <- app_assoc. reflexivity.
Qed.

(** C9 (as amended).  A block that completes inside the session scope has
    its value yielded and the handle closed.  A block that raises has the
    exception printed, then the session rolled back, then the handle closed,
    and the exception does not leave the scope.  Rollback only drops what
    was not committed, and every writing operation of the repositories
    commits at once, so for every request, returning or raising, the durable
    content after the scope is exactly what the handler had written. *)
Theorem session_scope_discipline :
  (forall (A : Type) (block : M A) (data : Store),
     let r := session (Some tt) block data in
     let end_state := snd (block (open_session data)) in
     propagated r = None /\
     database r = committed end_state /\
     match fst (block (open_session data)) with
     | Ok a => yielded r = Some a /\ printed r = [] /\
               events r = (log end_state ++ [Close])%list
     | Raise e => yielded r = None /\ printed r = [e] /\
                  events r = (log end_state ++ [Rollback; Close])%list
     end) /\
  (forall (auth : services.Auth) (get_image : string -> Result string)
          (req : app.Request) (data : Store),
     database (app.serve auth get_image req data)
     = working (snd (app.handle auth get_image req [] (open_session data)))).
Proof.
  split.
  - intros A block data. apply session_outcome.
  - intros auth get_image req data.
    unfold app.serve, get_db.
    destruct (session_outcome (app.handle auth get_image req []) data) as (_ & Hdb & _).
    rewrite Hdb.
    apply (handle_synced auth get_image req [] (open_session data)).
    reflexivity.
Qed.

(** C9 as stated fails.  A refresh request with a stale token raises 401
    inside the session scope after [update_token] has committed the cleared
    token: the scope prints the exception and rolls back, nothing is
    re-raised, and the cleared token stays in the database. *)
Lemma session_scope_swallows_fault :
  let req := app.GET_auth_refresh_token "a@x.com#stale" in
  let r := app.serve Sample.auth Sample.get_image req Sample.data in
  fst (app.handle Sample.auth Sample.get_image req [] Sample.s0)
  = Raise (HTTPException HTTP_401_UNAUTHORIZED "Invalid refresh token") /\
  propagated r = None /\
  printed r = [HTTPException HTTP_401_UNAUTHORIZED "Invalid refresh token"] /\
  events r = [Commit; Rollback; Close] /\
  users (database r) = [repositories_users.set_refresh_token Sample.alice None; Sample.bob] /\
  database r <> Sample.data.
Proof.
  vm_compute. repeat split. intros H. discriminate H.
Qed.

(** ** Creating a contact *)

Lemma create_todo_persists (body : ContactSchema) (user : User) (s : Session) :
  let contact := repository_contacts.new_contact
                   (next_id (map c_id (contacts (working s)))) body user in
  let w' := {| users := users (working s);
               contacts := (contacts (working s) ++ [contact])%list |} in
  repository_contacts.create_todo body user s
  = (Ok contact, {| committed := w'; working := w'; log := (log s ++ [Commit])%list |}).
Proof.
  intros contact w'.
  unfold repository_contacts.create_todo, bind, repository_contacts.add, commit,
    repository_contacts.refresh.
  cbn [working users committed log contacts]. fold contact.
  rewrite (find_appended c_id).
  - reflexivity.
  - intros x Hx. cbn [contact repository_contacts.new_contact c_id].
    pose proof (next_id_above (map c_id (contacts (working s))) (c_id x) (in_map c_id _ _ Hx)).
    lia.
Qed.

(** C8 fails on the code.  The route calls [repository_contacts.create_contact],
    a name the repository module does not define (its function is
    [create_todo]): every POST /contacts/ raises [AttributeError], the
    response is a server error instead of 201, and nothing is stored, while
    [create_todo] on the same arguments would store the caller's contact. *)
Theorem create_contact_route_faults :
  forall (body : ContactSchema) (user : User) (s : Session),
    routes_contacts.create_contact body user s
    = (Raise (AttributeError
                "module 'src.repository.contacts' has no attribute 'create_contact'"), s) /\
    response_status (app.success_status (app.POST_contacts body user))
                    (fst (routes_contacts.create_contact body user s))
    = HTTP_500_INTERNAL_SERVER_ERROR /\
    (forall auth get_image data,
       database (app.serve auth get_image (app.POST_contacts body user) data) = data) /\
    exists contact s',
      repository_contacts.create_todo body user s = (Ok contact, s') /\
      c_user_id contact = u_id user /\
      contacts (committed s') = (contacts (working s) ++ [contact])%list.
Proof.
  intros body user s. repeat split.
  pose proof (create_todo_persists body user s) as H. cbv zeta in H.
  eexists _, _. split; [exact H |]. split; reflexivity.
Qed.

(** ** A wrong password *)

(** C5 fails on the code.  For the confirmed account of the sample with a
    password that does not verify, building the exception of the
    invalid-password branch raises [TypeError] (the keyword is spelled
    [tatus_code]), so the response is a server error, not 401. *)
Theorem login_bad_password_faults :
  routes_auth.login Sample.auth "a@x.com" "wrong" Sample.s0
  = (Raise (TypeError "__init__() got an unexpected keyword argument"), Sample.s0) /\
  response_status HTTP_200_OK
                  (fst (routes_auth.login Sample.auth "a@x.com" "wrong" Sample.s0))
  = HTTP_500_INTERNAL_SERVER_ERROR /\
  response_status HTTP_200_OK
                  (fst (routes_auth.login Sample.auth "a@x.com" "wrong" Sample.s0))
  <> HTTP_401_UNAUTHORIZED.
Proof.
  assert (H : routes_auth.login Sample.auth "a@x.com" "wrong" Sample.s0
              = (Raise (TypeError "__init__() got an unexpected keyword argument"), Sample.s0)).
  { apply (login_bad_password Sample.auth Sample.s0 Sample.alice "wrong").
    - repeat constructor; simpl; intuition discriminate.
    - left. reflexivity.
    - reflexivity.
    - reflexivity. }
  rewrite H. repeat split. discriminate.
Qed.

(** ** The theorems at the sample data *)

Lemma sample_emails_unique : NoDup (map u_email (users (working Sample.s0))).
Proof. repeat constructor; simpl; intuition discriminate. Defined.

Lemma sample_contact_ids_unique : NoDup (map c_id (contacts (working Sample.s0))).
Proof. repeat constructor; simpl; intuition discriminate. Defined.

Lemma sample_email_free (email : string) :
  email <> "a@x.com" -> email <> "b@x.com" ->
  forall x, In x (users (working Sample.s0)) -> u_email x <> email.
Proof.
  intros Ha Hb x [<- | [<- | []]]; simpl; congruence.
Defined.

Lemma owner_isolation_witness :
  repository_contacts.get_contact 1 Sample.bob Sample.s0 = (Ok None, Sample.s0) /\
  repository_contacts.update_contact 1 Sample.body Sample.bob Sample.s0 = (Ok None, Sample.s0) /\
  repository_contacts.remove_contact 1 Sample.bob Sample.s0 = (Ok None, Sample.s0).
Proof.
  destruct (owner_isolation Sample.s0 Sample.jd Sample.alice Sample.bob Sample.body)
    as (Hget & Hupd & Hdel & _).
  - left. reflexivity.
  - exact sample_contact_ids_unique.
  - reflexivity.
  - cbv. discriminate.
  - repeat split; assumption.
Defined.

Lemma refresh_mismatch_witness :
  fst (routes_auth.refresh_token Sample.auth "a@x.com#stale" Sample.s0)
  = Raise (HTTPException HTTP_401_UNAUTHORIZED "Invalid refresh token").
Proof.
  destruct (refresh_mismatch_kills_session Sample.auth Sample.s0 Sample.alice "a@x.com#stale")
    as (s' & u' & Hrun & _).
  - exact sample_emails_unique.
  - left. reflexivity.
  - reflexivity.
  - cbv. discriminate.
  - rewrite Hrun. reflexivity.
Defined.

Lemma login_unconfirmed_witness :
  routes_auth.login Sample.auth "nobody@x.com" "pw" Sample.s0
  = (Raise (HTTPException HTTP_401_UNAUTHORIZED "Invalid email"), Sample.s0) /\
  routes_auth.login Sample.auth "b@x.com" "pw2" Sample.s0
  = (Raise (HTTPException HTTP_401_UNAUTHORIZED "Email not confirmed"), Sample.s0) /\
  routes_auth.login Sample.auth_faulty "a@x.com" "pw" Sample.s0
  = (Raise (Exception "hash could not be identified"), Sample.s0).
Proof.
  destruct (login_unconfirmed_rejected Sample.auth Sample.s0 "pw" sample_emails_unique)
    as (Habsent & _ & _).
  destruct (login_unconfirmed_rejected Sample.auth Sample.s0 "pw2" sample_emails_unique)
    as (_ & Hunconfirmed & _).
  destruct (login_unconfirmed_rejected Sample.auth_faulty Sample.s0 "pw" sample_emails_unique)
    as (_ & _ & Hfault).
  split; [| split].
  - apply Habsent. apply sample_email_free; discriminate.
  - apply (Hunconfirmed Sample.bob); [right; left |]; reflexivity.
  - apply (Hfault Sample.alice); [left | |]; reflexivity.
Defined.

Lemma login_round_trip_witness :
  exists tokens s' u',
    routes_auth.login Sample.auth "a@x.com" "pw" Sample.s0 = (Ok tokens, s') /\
    repositories_users.get_user_by_email "a@x.com" s' = (Ok (Some u'), s') /\
    u_refresh_token u' = Some (refresh_token_field tokens) /\
    u_id u' = 1 /\
    committed s' = working s'.
Proof.
  apply (login_refresh_token_round_trip Sample.auth Sample.s0 Sample.alice "pw").
  - exact sample_emails_unique.
  - left. reflexivity.
  - reflexivity.
  - reflexivity.
Defined.

Lemma confirmation_witness :
  (exists new_user bt' s',
     routes_auth.signup Sample.auth Sample.get_image Sample.carol [] "http://h/" Sample.s0
     = (Ok (new_user, bt'), s') /\
     In new_user (users (working s')) /\
     u_email new_user = "c@x.com" /\
     u_confirmed new_user = false) /\
  (exists s' u',
     routes_auth.confirmed_email Sample.auth "b@x.com#email" Sample.s0
     = (Ok "Email confirmed", s') /\
     repositories_users.get_user_by_email "b@x.com" s' = (Ok (Some u'), s') /\
     u_id u' = 2 /\
     u_confirmed u' = true /\
     committed s' = working s') /\
  routes_auth.confirmed_email Sample.auth "a@x.com#email" Sample.s0
  = (Ok "Your email is already confirmed", Sample.s0) /\
  app.is_confirmed 1
    (app.run Sample.auth Sample.get_image
       [app.GET_auth_refresh_token "a@x.com#stale";
        app.POST_auth_login "a@x.com" "wrong";
        app.GET_auth_confirmed_email "a@x.com#email";
        app.POST_auth_signup Sample.carol "http://h/"]
       Sample.data) = true /\
  confirmed_in_session 1
    (snd (repositories_users.update_avatar "a@x.com" "http://img/a.png" Sample.s0)).
Proof.
  destruct (confirmation_state_machine Sample.auth Sample.get_image)
    as (Hsignup & Hconfirm & Hkeep & Havatar).
  split; [| split; [| split; [| split]]].
  - apply Hsignup. apply sample_email_free; discriminate.
  - destruct (Hconfirm Sample.s0 Sample.bob "b@x.com#email") as [Hvalid _].
    + exact sample_emails_unique.
    + right. left. reflexivity.
    + reflexivity.
    + apply Hvalid. reflexivity.
  - destruct (Hconfirm Sample.s0 Sample.alice "a@x.com#email") as [_ Hagain].
    + exact sample_emails_unique.
    + left. reflexivity.
    + reflexivity.
    + apply Hagain. reflexivity.
  - apply Hkeep. reflexivity.
  - apply Havatar. split; reflexivity.
Defined.

Lemma signup_witness :
  routes_auth.signup Sample.auth Sample.get_image
    {| s_username := "alice2"; s_email := "a@x.com"; s_password := "pw" |} [] "http://h/"
    Sample.s0
  = (Raise (HTTPException HTTP_409_CONFLICT "Account already exists"), Sample.s0) /\
  exists new_user s',
    routes_auth.signup Sample.auth Sample.get_image Sample.carol [] "http://h/" Sample.s0
    = (Ok (new_user, [send_email_task "c@x.com" "carol" "http://h/"]), s') /\
    u_password new_user = "hash:pw3" /\
    u_confirmed new_user = false /\
    users (working s') = [Sample.alice; Sample.bob; new_user] /\
    app.run_task Sample.auth Sample.send_message
      (send_email_task "c@x.com" "carol" "http://h/")
    = (Ok tt, [ConnectionErrors "connection refused"]).
Proof.
  split.
  - destruct (signup_protocol Sample.auth Sample.get_image Sample.s0
                {| s_username := "alice2"; s_email := "a@x.com"; s_password := "pw" |}
                [] "http://h/" sample_emails_unique) as [Hconflict _].
    apply (Hconflict Sample.alice); [left |]; reflexivity.
  - destruct (signup_protocol Sample.auth Sample.get_image Sample.s0 Sample.carol
                [] "http://h/" sample_emails_unique) as [_ Hnew].
    assert (Hfree : forall x, In x (users (working Sample.s0)) -> u_email x <> "c@x.com")
      by (apply sample_email_free; discriminate).
    destruct (Hnew Hfree) as (new_user & s' & Hrun & _ & _ & Hpw & Hc & Hrows & _ & Hmail).
    exists new_user, s'.
    split; [exact Hrun |].
    split; [exact Hpw |].
    split; [exact Hc |].
    split; [exact Hrows |].
    apply (Hmail Sample.send_message "connection refused"). reflexivity.
Defined.

Lemma request_email_witness :
  routes_auth.request_email "nobody@x.com" [] "http://h/" Sample.s0
  = (Raise (AttributeError "'NoneType' object has no attribute 'confirmed'"), Sample.s0).
Proof.
  destruct (request_email_unknown_faults Sample.s0 "nobody@x.com" "http://h/" [])
    as (_ & Hrun & _).
  - apply sample_email_free; discriminate.
  - exact Hrun.
Defined.

(** * Further properties of the code *)

(** ** Pagination *)

Lemma offset_limit_length {A : Type} (offset limit : nat) (rows : list A) :
  (List.length (offset_limit offset limit rows) <= limit)%nat.
Proof.
  unfold offset_limit. rewrite length_firstn. lia.
Qed.

Lemma offset_limit_incl {A : Type} (offset limit : nat) (rows : list A) (x : A) :
  In x (offset_limit offset limit rows) -> In x rows.
Proof.
  unfold offset_limit. intros H.
  rewrite <- (firstn_skipn offset rows). apply in_or_app. right.
  rewrite <- (firstn_skipn limit (skipn offset rows)). apply in_or_app. left. exact H.
Qed.

Lemma firstn_sum {A : Type} (a b : nat) (l : list A) :
  firstn (a + b) l = (firstn a l ++ firstn b (skipn a l))%list.
Proof.
  revert l. induction a as [| a IH]; intros l; simpl; [reflexivity |].
  destruct l as [| x l]; simpl.
  - rewrite firstn_nil. reflexivity.
  - rewrite IH. reflexivity.
Qed.

Lemma offset_limit_tiles {A : Type} (offset limit1 limit2 : nat) (rows : list A) :
  (offset_limit offset limit1 rows ++ offset_limit (offset + limit1) limit2 rows)%list
  = offset_limit offset (limit1 + limit2) rows.
Proof.
  unfold offset_limit.
  rewrite firstn_sum, skipn_skipn.
  replace (limit1 + offset)%nat with (offset + limit1)%nat by lia.
  reflexivity.
Qed.

Lemma offset_limit_past_end {A : Type} (offset limit : nat) (rows : list A) :
  (List.length rows <= offset)%nat -> offset_limit offset limit rows = [].
Proof.
  intros H. unfold offset_limit. rewrite skipn_all2 by exact H. apply firstn_nil.
Qed.

(** X1.  The caller's own listing: [get_contacts] (repository and route)
    returns at most [limit] rows, every one of them a row of the table that
    the caller owns, and each contact the caller owns is on every page whose
    window covers its rank among the caller's contacts. *)
Theorem get_contacts_own_only :
  forall (limit offset : nat) (user : User) (s : Session),
    exists page,
      repository_contacts.get_contacts limit offset user s = (Ok page, s) /\
      routes_contacts.get_contacts limit offset user s = (Ok page, s) /\
      (List.length page <= limit)%nat /\
      (forall c, In c page -> In c (contacts (working s)) /\ c_user_id c = u_id user) /\
      (forall c, In c (contacts (working s)) -> c_user_id c = u_id user ->
         exists rank, forall limit' offset', (offset' <= rank < offset' + limit')%nat ->
           exists page',
             repository_contacts.get_contacts limit' offset' user s = (Ok page', s) /\
             In c page').
Proof.
  intros limit offset user s.
  eexists. split; [reflexivity |]. split; [reflexivity |].
  split; [apply offset_limit_length |]. split.
  - intros c Hc. apply offset_limit_incl in Hc.
    apply filter_In in Hc. destruct Hc as [Hin Hown]. split; [exact Hin |].
    apply Z.eqb_eq. exact Hown.
  - intros c Hin Hown.
    assert (Hf : In c (filter (repository_contacts.owned_by user) (contacts (working s)))).
    { apply filter_In. split; [exact Hin |]. apply Z.eqb_eq. exact Hown. }
    destruct (In_nth_error _ _ Hf) as [rank Hrank].
    exists rank. intros limit' offset' Hwin.
    eexists. split; [reflexivity |].
    eapply page_covers; eauto.
Qed.

(** X2.  Consecutive pages tile a listing: the page of [limit1] rows at
    [offset] followed by the page of [limit2] rows at [offset + limit1] is
    the page of [limit1 + limit2] rows at [offset], for the administrative
    listing and for the caller's own; an offset at or past the end of the
    table gives the empty page. *)
Theorem listing_pages_tile :
  forall (limit1 limit2 offset : nat) (user : User) (s : Session),
    exists all1 all2 own1 own2,
      repository_contacts.get_all_contacts limit1 offset s = (Ok all1, s) /\
      repository_contacts.get_all_contacts limit2 (offset + limit1) s = (Ok all2, s) /\
      repository_contacts.get_all_contacts (limit1 + limit2) offset s
      = (Ok (all1 ++ all2)%list, s) /\
      repository_contacts.get_contacts limit1 offset user s = (Ok own1, s) /\
      repository_contacts.get_contacts limit2 (offset + limit1) user s = (Ok own2, s) /\
      repository_contacts.get_contacts (limit1 + limit2) offset user s
      = (Ok (own1 ++ own2)%list, s) /\
      ((List.length (contacts (working s)) <= offset)%nat -> all1 = [] /\ own1 = []).
Proof.
  intros limit1 limit2 offset user s.
  eexists _, _, _, _.
  repeat (split; [reflexivity |]).
  split; [| split; [reflexivity |]; split; [reflexivity |]; split].
  - unfold repository_contacts.get_all_contacts. rewrite offset_limit_tiles. reflexivity.
  - unfold repository_contacts.get_contacts. rewrite offset_limit_tiles. reflexivity.
  - intros Hlen. split.
    + apply offset_limit_past_end. exact Hlen.
    + apply offset_limit_past_end.
      pose proof (filter_length_le (repository_contacts.owned_by user) (contacts (working s))).
      lia.
Qed.

(** ** Single contacts *)

Lemma own_query_single (rows : list Contact) (c : Contact) (user : User) :
  NoDup (map c_id rows) -> In c rows -> c_user_id c = u_id user ->
  repository_contacts.filter_by_id_user (c_id c) user rows = [c].
Proof.
  unfold repository_contacts.filter_by_id_user, repository_contacts.owned_by.
  induction rows as [| a rows IH]; simpl; intros ND Hin Hown; [contradiction |].
  inversion ND as [| k ks Hnotin ND']; subst.
  destruct Hin as [-> | Hin].
  - rewrite Z.eqb_refl, Hown, Z.eqb_refl. simpl. f_equal.
    apply filter_nil_iff. intros x Hx.
    replace (c_id x =? c_id c) with false; [reflexivity |].
    symmetry. apply Z.eqb_neq. intros E. apply Hnotin. rewrite <- E. apply in_map. exact Hx.
  - replace (c_id a =? c_id c) with false.
    + simpl. apply IH; assumption.
    + symmetry. apply Z.eqb_neq. intros E. apply Hnotin. rewrite E. apply in_map. exact Hin.
Qed.

Lemma query_at_most_one (rows : list Contact) (contact_id : Z) (user : User) :
  NoDup (map c_id rows) ->
  repository_contacts.filter_by_id_user contact_id user rows = [] \/
  exists c, repository_contacts.filter_by_id_user contact_id user rows = [c].
Proof.
  intros ND.
  destruct (repository_contacts.filter_by_id_user contact_id user rows) as [| c rest] eqn:E;
    [left; reflexivity | right].
  assert (Hc : In c (repository_contacts.filter_by_id_user contact_id user rows))
    by (rewrite E; left; reflexivity).
  apply filter_In in Hc. destruct Hc as [Hin Hp].
  apply andb_true_iff in Hp. destruct Hp as [Hid Hown].
  apply Z.eqb_eq in Hid. apply Z.eqb_eq in Hown.
  exists c. rewrite <- E, <- Hid. apply own_query_single; assumption.
Qed.


Lemma find_replaced (rows : list Contact) (c : Contact) (f : Contact -> Contact) :
  (forall x, c_id (f x) = c_id x) ->
  NoDup (map c_id rows) -> In c rows ->
  find (fun x => c_id x =? c_id c)
       (map (fun x => if c_id x =? c_id c then f x else x) rows) = Some (f c).
Proof.
  intros Hid. induction rows as [| a rows IH]; simpl; intros ND Hin; [contradiction |].
  inversion ND as [| k ks Hnotin ND']; subst.
  destruct (c_id a =? c_id c) eqn:E.
  - rewrite Hid, E. apply Z.eqb_eq in E.
    destruct Hin as [-> | Hin]; [reflexivity |].
    exfalso. apply Hnotin. rewrite E. apply in_map. exact Hin.
  - rewrite E. destruct Hin as [-> | Hin].
    + rewrite Z.eqb_refl in E. discriminate.
    + apply IH; assumption.
Qed.

Lemma replaced_ids (rows : list Contact) (contact_id : Z) (f : Contact -> Contact) :
  (forall x, c_id (f x) = c_id x) ->
  map c_id (map (fun x => if c_id x =? contact_id then f x else x) rows) = map c_id rows.
Proof.
  intros Hid. rewrite map_map. apply map_ext. intros x.
  destruct (c_id x =? contact_id); [apply Hid | reflexivity].
Qed.

Lemma NoDup_map_filter {A : Type} (key : A -> Z) (p : A -> bool) (l : list A) :
  NoDup (map key l) -> NoDup (map key (filter p l)).
Proof.
  induction l as [| a l IH]; simpl; intros ND; [constructor |].
  inversion ND as [| k ks Hnotin ND']; subst.
  destruct (p a); simpl; [| apply IH; exact ND'].
  constructor; [| apply IH; exact ND'].
  intros Hin. apply Hnotin.
  apply in_map_iff in Hin. destruct Hin as (x & Hx & Hf).
  apply filter_In in Hf. rewrite <- Hx. apply in_map. tauto.
Qed.

(** The session after [update_contact] has rewritten the row of [c]. *)
Lemma update_by_owner_runs (s : Session) (c : Contact) (user : User) (body : ContactSchema) :
  NoDup (map c_id (contacts (working s))) ->
  In c (contacts (working s)) ->
  c_user_id c = u_id user ->
  let w' := {| users := users (working s);
               contacts := map (fun x => if c_id x =? c_id c
                                         then repository_contacts.assign body x else x)
                               (contacts (working s)) |} in
  repository_contacts.update_contact (c_id c) body user s
  = (Ok (Some (repository_contacts.assign body c)),
     {| committed := w'; working := w'; log := (log s ++ [Commit])%list |}).
Proof.
  intros ND Hin Hown w'.
  unfold repository_contacts.update_contact, bind, repository_contacts.get_contact.
  rewrite (own_query_single _ c user ND Hin Hown). cbn [scalar_one_or_none].
  unfold repository_contacts.write_back, commit, repository_contacts.refresh, ret.
  cbn [working committed contacts users log].
  rewrite (find_replaced _ c (repository_contacts.assign body)); auto.
Qed.

(** X4.  [update_contact] by the owner, contact ids being unique: it returns
    the row with all six fields taken from the body and with its id and owner
    kept; that row replaces the old one, every other row stays, no id is
    added or lost, the change is committed, the users are untouched, and
    [get_contact] then returns the new row; the route returns it too. *)
Theorem update_by_owner :
  forall (s : Session) (c : Contact) (user : User) (body : ContactSchema),
    NoDup (map c_id (contacts (working s))) ->
    In c (contacts (working s)) ->
    c_user_id c = u_id user ->
    exists (c' : Contact) (s' : Session),
      repository_contacts.update_contact (c_id c) body user s = (Ok (Some c'), s') /\
      routes_contacts.update_contact body (c_id c) user s = (Ok c', s') /\
      c' = {| c_id := c_id c;
              c_first_name := b_first_name body; c_last_name := b_last_name body;
              c_email := b_email body; c_phone_number := b_phone_number body;
              c_birthday := b_birthday body; c_data := b_data body;
              c_user_id := c_user_id c |} /\
      In c' (contacts (working s')) /\
      (forall x, In x (contacts (working s)) -> x <> c -> In x (contacts (working s'))) /\
      map c_id (contacts (working s')) = map c_id (contacts (working s)) /\
      users (working s') = users (working s) /\
      committed s' = working s' /\
      repository_contacts.get_contact (c_id c) user s' = (Ok (Some c'), s').
Proof.
  intros s c user body ND Hin Hown.
  pose proof (update_by_owner_runs s c user body ND Hin Hown) as Hrun. cbv zeta in Hrun.
  eexists _, _. split; [exact Hrun |].
  split; [unfold routes_contacts.update_contact, bind; rewrite Hrun; reflexivity |].
  split; [reflexivity |].
  cbn [working committed contacts users].
  assert (Hids : forall x, c_id (repository_contacts.assign body x) = c_id x) by reflexivity.
  split; [| split; [| split; [| split; [| split]]]].
  - apply in_map_iff. exists c. rewrite Z.eqb_refl. auto.
  - intros x Hx Hne. apply in_map_iff. exists x. split; [| exact Hx].
    replace (c_id x =? c_id c) with false; [reflexivity |].
    symmetry. apply Z.eqb_neq. intros E. apply Hne.
    eapply key_injective; eauto.
  - apply replaced_ids. exact Hids.
  - reflexivity.
  - reflexivity.
  - unfold repository_contacts.get_contact. cbn [working contacts].
    change (c_id c) with (c_id (repository_contacts.assign body c)) at 1.
    rewrite own_query_single; [reflexivity | | | exact Hown].
    + rewrite replaced_ids; [exact ND | exact Hids].
    + apply in_map_iff. exists c. rewrite Z.eqb_refl. auto.
Qed.

Lemma remove_by_owner_runs (s : Session) (c : Contact) (user : User) :
  NoDup (map c_id (contacts (working s))) ->
  In c (contacts (working s)) ->
  c_user_id c = u_id user ->
  let w' := {| users := users (working s);
               contacts := filter (fun x => negb (c_id x =? c_id c)) (contacts (working s)) |} in
  repository_contacts.remove_contact (c_id c) user s
  = (Ok (Some c), {| committed := w'; working := w'; log := (log s ++ [Commit])%list |}).
Proof.
  intros ND Hin Hown w'.
  unfold repository_contacts.remove_contact, bind, repository_contacts.get_contact.
  rewrite (own_query_single _ c user ND Hin Hown). reflexivity.
Qed.

(** X5.  [remove_contact] by the owner, contact ids being unique: it returns
    the removed row; the row is gone and every other row stays, durably;
    after that the id is not found any more, so [get_contact] and a second
    [remove_contact] return none and the routes answer 404. *)
Theorem remove_by_owner :
  forall (s : Session) (c : Contact) (user : User),
    NoDup (map c_id (contacts (working s))) ->
    In c (contacts (working s)) ->
    c_user_id c = u_id user ->
    exists s' : Session,
      repository_contacts.remove_contact (c_id c) user s = (Ok (Some c), s') /\
      routes_contacts.delete_contact (c_id c) user s = (Ok c, s') /\
      ~ In (c_id c) (map c_id (contacts (working s'))) /\
      (forall x, In x (contacts (working s)) -> x <> c -> In x (contacts (working s'))) /\
      (forall x, In x (contacts (working s')) -> In x (contacts (working s))) /\
      users (working s') = users (working s) /\
      committed s' = working s' /\
      repository_contacts.get_contact (c_id c) user s' = (Ok None, s') /\
      repository_contacts.remove_contact (c_id c) user s' = (Ok None, s') /\
      routes_contacts.get_contact (c_id c) user s'
      = (Raise (HTTPException HTTP_404_NOT_FOUND "NOT FOUND!"), s') /\
      routes_contacts.delete_contact (c_id c) user s'
      = (Raise (HTTPException HTTP_404_NOT_FOUND "NOT FOUND!"), s').
Proof.
  intros s c user ND Hin Hown.
  pose proof (remove_by_owner_runs s c user ND Hin Hown) as Hrun. cbv zeta in Hrun.
  eexists. split; [exact Hrun |].
  split; [unfold routes_contacts.delete_contact, bind; rewrite Hrun; reflexivity |].
  cbn [working committed contacts users].
  set (rest := filter (fun x => negb (c_id x =? c_id c)) (contacts (working s))).
  assert (Hgone : ~ In (c_id c) (map c_id rest)).
  { intros H. apply in_map_iff in H. destruct H as (x & Hx & Hf).
    apply filter_In in Hf. destruct Hf as [_ Hp].
    rewrite Hx, Z.eqb_refl in Hp. discriminate. }
  set (s' := {| committed := {| users := users (working s); contacts := rest |};
                working := {| users := users (working s); contacts := rest |};
                log := (log s ++ [Commit])%list |}).
  assert (Hget : repository_contacts.get_contact (c_id c) user s' = (Ok None, s')).
  { unfold repository_contacts.get_contact, repository_contacts.filter_by_id_user.
    cbn [s' working contacts].
    rewrite filter_nil_iff; [reflexivity |].
    intros x Hx. replace (c_id x =? c_id c) with false; [reflexivity |].
    symmetry. apply Z.eqb_neq. intros E. apply Hgone. rewrite <- E. apply in_map. exact Hx. }
  assert (Hdel : repository_contacts.remove_contact (c_id c) user s' = (Ok None, s')).
  { unfold repository_contacts.remove_contact, bind. rewrite Hget. reflexivity. }
  split; [exact Hgone |].
  split.
  { intros x Hx Hne. apply filter_In. split; [exact Hx |].
    apply negb_true_iff, Z.eqb_neq. intros E. apply Hne. eapply key_injective; eauto. }
  split; [intros x Hx; apply filter_In in Hx; tauto |].
  split; [reflexivity |]. split; [reflexivity |].
  split; [exact Hget |]. split; [exact Hdel |].
  split.
  - unfold routes_contacts.get_contact, bind. rewrite Hget. reflexivity.
  - unfold routes_contacts.delete_contact, bind. rewrite Hdel. reflexivity.
Qed.

(** X6.  What the two writing operations never touch, contact ids being
    unique: whatever id, body and caller they are given, and whether they
    return or raise, [update_contact] and [remove_contact] leave every
    contact that the caller does not own in the table as it was, and leave
    the users alone. *)
Theorem foreign_contacts_untouched :
  forall (s : Session) (contact_id : Z) (body : ContactSchema) (user : User),
    NoDup (map c_id (contacts (working s))) ->
    let after_update := snd (repository_contacts.update_contact contact_id body user s) in
    let after_remove := snd (repository_contacts.remove_contact contact_id user s) in
    (forall x, In x (contacts (working s)) -> c_user_id x <> u_id user ->
               In x (contacts (working after_update)) /\
               In x (contacts (working after_remove))) /\
    users (working after_update) = users (working s) /\
    users (working after_remove) = users (working s).
Proof.
  intros s contact_id body user ND. cbv zeta.
  unfold repository_contacts.update_contact, repository_contacts.remove_contact, bind,
    repository_contacts.get_contact.
  destruct (query_at_most_one (contacts (working s)) contact_id user ND) as [E | [c E]];
    rewrite E; cbn [scalar_one_or_none].
  - cbn. auto.
  - assert (Hc : In c (repository_contacts.filter_by_id_user contact_id user
                         (contacts (working s)))) by (rewrite E; left; reflexivity).
    apply filter_In in Hc. destruct Hc as [Hin Hp].
    apply andb_true_iff in Hp. destruct Hp as [_ Hown]. apply Z.eqb_eq in Hown.
    unfold repository_contacts.write_back, repository_contacts.delete, commit,
      repository_contacts.refresh, ret.
    cbn [working committed contacts users log].
    split; [| split].
    + intros x Hx Hforeign.
      assert (Hne : (c_id x =? c_id c) = false).
      { apply Z.eqb_neq. intros Eid.
        assert (x = c) by (eapply key_injective; eauto). congruence. }
      split.
      * match goal with
        | |- context [find ?p ?l] => destruct (find p l)
        end; cbn [snd working contacts];
          (apply in_map_iff; exists x; rewrite Hne; auto).
      * cbn [snd working contacts]. apply filter_In. rewrite Hne. auto.
    + match goal with
      | |- context [find ?p ?l] => destruct (find p l)
      end; reflexivity.
    + reflexivity.
Qed.

(** X7.  [create_todo] stores what it was given and the stored row can be
    read back: the new contact carries the fields of the body, the caller as
    owner and an id no row had before; it is appended to the table and
    committed; [get_contact] with the new id then returns it to the caller
    and none to any other user. *)
Theorem create_todo_round_trip :
  forall (body : ContactSchema) (user : User) (s : Session),
    exists (contact : Contact) (s' : Session),
      repository_contacts.create_todo body user s = (Ok contact, s') /\
      contact = {| c_id := c_id contact;
                   c_first_name := b_first_name body; c_last_name := b_last_name body;
                   c_email := b_email body; c_phone_number := b_phone_number body;
                   c_birthday := b_birthday body; c_data := b_data body;
                   c_user_id := u_id user |} /\
      ~ In (c_id contact) (map c_id (contacts (working s))) /\
      contacts (working s') = (contacts (working s) ++ [contact])%list /\
      committed s' = working s' /\
      repository_contacts.get_contact (c_id contact) user s' = (Ok (Some contact), s') /\
      (forall other, u_id other <> u_id user ->
                     repository_contacts.get_contact (c_id contact) other s' = (Ok None, s')).
Proof.
  intros body user s.
  pose proof (create_todo_persists body user s) as Hrun. cbv zeta in Hrun.
  set (contact := repository_contacts.new_contact
                    (next_id (map c_id (contacts (working s)))) body user) in *.
  assert (Hfresh : forall x, In x (contacts (working s)) -> (c_id x =? c_id contact) = false).
  { intros x Hx. apply Z.eqb_neq.
    pose proof (next_id_above (map c_id (contacts (working s))) (c_id x) (in_map c_id _ _ Hx)).
    cbn [contact repository_contacts.new_contact c_id]. lia. }
  assert (Hold : forall who,
             filter (fun c => (c_id c =? c_id contact) && repository_contacts.owned_by who c)
                    (contacts (working s)) = []).
  { intros who. apply filter_nil_iff. intros x Hx. rewrite (Hfresh x Hx). reflexivity. }
  eexists contact, _. split; [exact Hrun |].
  split; [reflexivity |].
  split.
  { intros Hin. apply in_map_iff in Hin. destruct Hin as (x & Hid & Hx).
    pose proof (Hfresh x Hx) as Hne. rewrite Hid, Z.eqb_refl in Hne. discriminate. }
  split; [reflexivity |]. split; [reflexivity |].
  unfold repository_contacts.get_contact, repository_contacts.filter_by_id_user.
  cbn [working contacts].
  split.
  - rewrite filter_app, Hold. cbn [filter app].
    unfold repository_contacts.owned_by at 1.
    cbn [contact repository_contacts.new_contact c_id c_user_id].
    rewrite !Z.eqb_refl. reflexivity.
  - intros other Hne. rewrite filter_app, Hold. cbn [filter app].
    unfold repository_contacts.owned_by at 1.
    cbn [contact repository_contacts.new_contact c_id c_user_id].
    replace (u_id user =? u_id other) with false; [rewrite Z.eqb_refl; reflexivity |].
    symmetry. apply Z.eqb_neq. congruence.
Qed.

(** X8.  Contact ids stay unique: if no two rows of the table share an id,
    the same holds after [create_todo], after [update_contact] and after
    [remove_contact], whatever their arguments and whether they return or
    raise. *)
Theorem contact_ids_stay_unique :
  forall (s : Session),
    NoDup (map c_id (contacts (working s))) ->
    (forall body user,
       NoDup (map c_id (contacts (working (snd (repository_contacts.create_todo body user s)))))) /\
    (forall contact_id body user,
       NoDup (map c_id (contacts (working
                (snd (repository_contacts.update_contact contact_id body user s)))))) /\
    (forall contact_id user,
       NoDup (map c_id (contacts (working
                (snd (repository_contacts.remove_contact contact_id user s)))))).
Proof.
  intros s ND. split; [| split].
  - intros body user. rewrite create_todo_persists. cbn [snd working contacts].
    rewrite map_app. apply NoDup_app; [exact ND | repeat constructor; intros [] |].
    intros a Ha [<- | []].
    pose proof (next_id_above _ _ Ha) as Hlt.
    cbn [repository_contacts.new_contact c_id] in Hlt. lia.
  - intros contact_id body user.
    unfold repository_contacts.update_contact, bind, repository_contacts.get_contact.
    destruct (repository_contacts.filter_by_id_user contact_id user (contacts (working s)))
      as [| c [| c2 rest]]; cbn [scalar_one_or_none]; try exact ND.
    unfold repository_contacts.write_back, commit, repository_contacts.refresh, ret.
    cbn [working committed contacts users log].
    match goal with
    | |- context [find ?p ?l] => destruct (find p l)
    end; cbn [snd working contacts];
      (rewrite replaced_ids; [exact ND | reflexivity]).
  - intros contact_id user.
    unfold repository_contacts.remove_contact, bind, repository_contacts.get_contact.
    destruct (repository_contacts.filter_by_id_user contact_id user (contacts (working s)))
      as [| c [| c2 rest]]; cbn [scalar_one_or_none]; try exact ND.
    cbn. apply NoDup_map_filter. exact ND.
Qed.

(** ** The role gate of the administrative listing *)

(** X9.  [get_all_todos] behind [RoleAccess([admin, moderator])]: a caller
    whose role is [user] is refused with 403 FORBIDDEN before any query; an
    admin or a moderator gets the page of all contacts, whoever owns them;
    the session is unchanged in both cases. *)
Theorem get_all_todos_gate :
  forall (limit offset : nat) (caller : User) (s : Session),
    (u_role caller = Role.user ->
     routes_contacts.get_all_todos limit offset caller s
     = (Raise (HTTPException HTTP_403_FORBIDDEN "FORBIDDEN"), s)) /\
    (u_role caller <> Role.user ->
     routes_contacts.get_all_todos limit offset caller s
     = (Ok (offset_limit offset limit (contacts (working s))), s) /\
     routes_contacts.get_all_todos limit offset caller s
     = repository_contacts.get_all_contacts limit offset s).
Proof.
  intros limit offset caller s.
  unfold routes_contacts.get_all_todos, bind, lift, routes_contacts.access_to_route_all,
    services.RoleAccess.
  destruct (u_role caller); cbn; split; intros H; try congruence; auto.
Qed.

(** ** Refresh, confirmation and re-sending: the remaining paths *)

Lemma lookup_in (s : Session) (email : string) (u : User) :
  repositories_users.get_user_by_email email s = (Ok (Some u), s) ->
  In u (users (working s)) /\ u_email u = email.
Proof.
  unfold repositories_users.get_user_by_email. intros H.
  destruct (filter (fun x => String.eqb (u_email x) email) (users (working s)))
    as [| x [| y rest]] eqn:E; cbn in H; try discriminate.
  inversion H; subst x.
  assert (Hu : In u (filter (fun x => String.eqb (u_email x) email) (users (working s))))
    by (rewrite E; left; reflexivity).
  apply filter_In in Hu. destruct Hu as [Hin Hem]. apply String.eqb_eq in Hem. auto.
Qed.

(** X10.  Rotation: when the presented refresh token decodes to the email of
    an account and is the string stored for it, [refresh_token] returns a new
    pair of tokens and the account's stored token becomes the new refresh
    token, durably. *)
Theorem refresh_rotates :
  forall (auth : services.Auth) (s : Session) (u : User) (token : string),
    NoDup (map u_email (users (working s))) ->
    In u (users (working s)) ->
    services.decode_refresh_token auth token = Ok (u_email u) ->
    u_refresh_token u = Some token ->
    exists (s' : Session) (u' : User),
      routes_auth.refresh_token auth token s
      = (Ok {| access_token := services.create_access_token auth [("sub", u_email u)];
               refresh_token_field := services.create_refresh_token auth [("sub", u_email u)];
               token_type := "bearer" |}, s') /\
      repositories_users.get_user_by_email (u_email u) s' = (Ok (Some u'), s') /\
      u_refresh_token u' = Some (services.create_refresh_token auth [("sub", u_email u)]) /\
      u_id u' = u_id u /\
      committed s' = working s'.
Proof.
  intros auth s u token ND Hin Hdec Hst.
  set (rt := services.create_refresh_token auth [("sub", u_email u)]).
  destruct (update_token_stored s u (Some rt) ND Hin) as (s' & Hupd & Hlook & Hsync).
  exists s', (repositories_users.set_refresh_token u (Some rt)).
  split; [| repeat split; auto].
  unfold routes_auth.refresh_token, bind, lift.
  rewrite Hdec, (lookup_found s u ND Hin), Hst.
  cbn [routes_auth.token_differs]. rewrite String.eqb_refl. cbn [negb].
  fold rt. rewrite Hupd. reflexivity.
Qed.

(** X11.  A refresh token is good once.  After a successful refresh that
    issued a different token, presenting the old token again is answered
    with 401 and clears the stored token, and from then on the token issued
    by the first refresh is answered with 401 as well. *)
Theorem refresh_replay_kills_session :
  forall (auth : services.Auth) (s : Session) (u : User) (token : string),
    NoDup (map u_email (users (working s))) ->
    In u (users (working s)) ->
    services.decode_refresh_token auth token = Ok (u_email u) ->
    u_refresh_token u = Some token ->
    let issued := services.create_refresh_token auth [("sub", u_email u)] in
    issued <> token ->
    services.decode_refresh_token auth issued = Ok (u_email u) ->
    exists (tokens : TokenSchema) (s1 s2 s3 : Session),
      routes_auth.refresh_token auth token s = (Ok tokens, s1) /\
      refresh_token_field tokens = issued /\
      routes_auth.refresh_token auth token s1
      = (Raise (HTTPException HTTP_401_UNAUTHORIZED "Invalid refresh token"), s2) /\
      routes_auth.refresh_token auth issued s2
      = (Raise (HTTPException HTTP_401_UNAUTHORIZED "Invalid refresh token"), s3).
Proof.
  intros auth s u token ND Hin Hdec Hst issued Hne Hdec'.
  pose (u1 := repositories_users.set_refresh_token u (Some issued)).
  pose (u2 := repositories_users.set_refresh_token u1 None).
  destruct (assignment_stored s u (fun row => repositories_users.set_refresh_token row (Some issued)))
    as (s1 & Hrun1 & Hlook1 & _ & ND1 & _); auto.
  cbv beta in Hlook1. fold u1 in Hlook1.
  destruct (lookup_in _ _ _ Hlook1) as [Hin1 _].
  destruct (assignment_stored s1 u1 (fun row => repositories_users.set_refresh_token row None))
    as (s2 & Hrun2 & Hlook2 & _ & ND2 & _); auto.
  cbv beta in Hlook2. fold u2 in Hlook2.
  destruct (lookup_in _ _ _ Hlook2) as [Hin2 _].
  destruct (assignment_stored s2 u2 (fun row => repositories_users.set_refresh_token row None))
    as (s3 & Hrun3 & _); auto.
  exists {| access_token := services.create_access_token auth [("sub", u_email u)];
            refresh_token_field := issued; token_type := "bearer" |}, s1, s2, s3.
  split; [| split; [| split]].
  - unfold routes_auth.refresh_token, bind, lift.
    rewrite Hdec, (lookup_found s u ND Hin), Hst.
    cbn [routes_auth.token_differs]. rewrite String.eqb_refl. cbn [negb].
    unfold repositories_users.update_token. fold issued. rewrite Hrun1. reflexivity.
  - reflexivity.
  - unfold routes_auth.refresh_token, bind, lift.
    rewrite Hdec.
    rewrite Hlook1.
    replace (routes_auth.token_differs (u_refresh_token u1) token) with true.
    + unfold repositories_users.update_token. rewrite Hrun2. reflexivity.
    + symmetry. apply token_differs_true. cbn. congruence.
  - unfold routes_auth.refresh_token, bind, lift.
    rewrite Hdec'.
    change (repositories_users.get_user_by_email (u_email u) s2)
      with (repositories_users.get_user_by_email (u_email u1) s2).
    rewrite Hlook2.
    replace (routes_auth.token_differs (u_refresh_token u2) issued) with true by reflexivity.
    unfold repositories_users.update_token. rewrite Hrun3. reflexivity.
Qed.

(** X12.  The failing paths of [refresh_token] that leave the session as it
    was: an exception of [decode_refresh_token] is raised unchanged, and a
    token whose subject has no account makes the handler read
    [refresh_token] on the none of the lookup, an [AttributeError] (server
    error), not a 401. *)
Theorem refresh_token_without_account :
  forall (auth : services.Auth) (s : Session) (token : string),
    (forall e, services.decode_refresh_token auth token = Raise e ->
               routes_auth.refresh_token auth token s = (Raise e, s)) /\
    (forall email,
       services.decode_refresh_token auth token = Ok email ->
       (forall x, In x (users (working s)) -> u_email x <> email) ->
       routes_auth.refresh_token auth token s
       = (Raise (AttributeError "'NoneType' object has no attribute 'refresh_token'"), s) /\
       response_status HTTP_200_OK (fst (routes_auth.refresh_token auth token s))
       = HTTP_500_INTERNAL_SERVER_ERROR).
Proof.
  intros auth s token. split.
  - intros e Hdec. unfold routes_auth.refresh_token, bind, lift. rewrite Hdec. reflexivity.
  - intros email Hdec Habs.
    assert (Hrun : routes_auth.refresh_token auth token s
                   = (Raise (AttributeError "'NoneType' object has no attribute 'refresh_token'"), s)).
    { unfold routes_auth.refresh_token, bind, lift.
      rewrite Hdec, (lookup_absent s email Habs). reflexivity. }
    rewrite Hrun. split; reflexivity.
Qed.

(** X13.  [request_email] for an account that exists: a confirmed account
    gets "Your email is already confirmed" and nothing is queued; an
    unconfirmed one gets "Check your email for confirmation." and exactly
    one [send_email] task, for its email and username, is added at the end
    of the queue; the session is unchanged either way. *)
Theorem request_email_known :
  forall (s : Session) (u : User) (bt : BackgroundTasks) (base_url : string),
    NoDup (map u_email (users (working s))) ->
    In u (users (working s)) ->
    routes_auth.request_email (u_email u) bt base_url s
    = (Ok (if u_confirmed u
           then ("Your email is already confirmed", bt)
           else ("Check your email for confirmation.",
                 (bt ++ [send_email_task (u_email u) (u_username u) base_url])%list)),
       s).
Proof.
  intros s u bt base_url ND Hin.
  unfold routes_auth.request_email, bind.
  rewrite (lookup_found s u ND Hin). cbn [getattr ret].
  destruct (u_confirmed u); reflexivity.
Qed.

(** X14.  The failing paths of [confirmed_email]: an exception of
    [get_email_from_token] is raised unchanged, and a token whose subject
    has no account is answered with 400 "Verification error"; neither
    changes the session. *)
Theorem confirmed_email_rejections :
  forall (auth : services.Auth) (s : Session) (token : string),
    (forall e, services.get_email_from_token auth token = Raise e ->
               routes_auth.confirmed_email auth token s = (Raise e, s)) /\
    (forall email,
       services.get_email_from_token auth token = Ok email ->
       (forall x, In x (users (working s)) -> u_email x <> email) ->
       routes_auth.confirmed_email auth token s
       = (Raise (HTTPException HTTP_400_BAD_REQUEST "Verification error"), s)).
Proof.
  intros auth s token. split.
  - intros e Hdec. unfold routes_auth.confirmed_email, bind, lift. rewrite Hdec. reflexivity.
  - intros email Hdec Habs.
    unfold routes_auth.confirmed_email, bind, lift.
    rewrite Hdec, (lookup_absent s email Habs). reflexivity.
Qed.

Lemma NoDup_appended {A : Type} (l : list A) (x : A) :
  NoDup l -> ~ In x l -> NoDup (l ++ [x]).
Proof.
  intros ND Hx. apply NoDup_app; [exact ND | repeat constructor; intros [] |].
  intros a Ha [<- | []]. exact (Hx Ha).
Qed.

Lemma confirm_valid_keeps (auth : services.Auth) (s : Session) (u : User) (token : string) :
  NoDup (map u_email (users (working s))) -> In u (users (working s)) ->
  services.get_email_from_token auth token = Ok (u_email u) ->
  u_confirmed u = false ->
  exists s',
    routes_auth.confirmed_email auth token s = (Ok "Email confirmed", s') /\
    repositories_users.get_user_by_email (u_email u) s'
    = (Ok (Some (repositories_users.set_confirmed u true)), s') /\
    NoDup (map u_email (users (working s'))).
Proof.
  intros ND Hin Hdec Hc.
  destruct (assignment_stored s u (fun row => repositories_users.set_confirmed row true))
    as (s' & Hrun & Hlook & _ & ND' & _); auto.
  exists s'. repeat split; auto.
  unfold routes_auth.confirmed_email, repositories_users.confirmed_email.
  unfold bind at 1 2 3. unfold lift. rewrite Hdec.
  rewrite (lookup_found s u ND Hin), Hc.
  unfold bind at 1. rewrite (lookup_found s u ND Hin).
  rewrite Hrun. reflexivity.
Qed.

Lemma login_succeeds (auth : services.Auth) (s : Session) (u : User) (password : string) :
  NoDup (map u_email (users (working s))) -> In u (users (working s)) ->
  u_confirmed u = true ->
  services.verify_password auth password (u_password u) = Ok true ->
  let rt := services.create_refresh_token auth [("sub", u_email u)] in
  exists s',
    routes_auth.login auth (u_email u) password s
    = (Ok {| access_token :=
               services.create_access_token auth [("sub", u_email u); ("test", "Соня")];
             refresh_token_field := rt; token_type := "bearer" |}, s') /\
    repositories_users.get_user_by_email (u_email u) s'
    = (Ok (Some (repositories_users.set_refresh_token u (Some rt))), s').
Proof.
  intros ND Hin Hc Hv rt.
  destruct (update_token_stored s u (Some rt) ND Hin) as (s' & Hupd & Hlook & _).
  exists s'. split; [| exact Hlook].
  unfold routes_auth.login, bind.
  rewrite (lookup_found s u ND Hin), Hc. cbn [negb].
  unfold lift. rewrite Hv. cbn [negb].
  fold rt. rewrite Hupd. reflexivity.
Qed.

(** X15.  From signup to the first session.  For a new email: after
    [signup], [login] with the signup password is refused with 401 "Email
    not confirmed"; after [confirmed_email] with a token whose subject is
    that email, the same [login] succeeds, provided [verify_password]
    accepts the password against the hash that signup stored; the account
    then holds the refresh token of the response. *)
Theorem signup_confirm_login :
  forall (auth : services.Auth) (get_image : string -> Result string)
         (s : Session) (body : UserSchema) (base_url token : string),
    NoDup (map u_email (users (working s))) ->
    (forall x, In x (users (working s)) -> u_email x <> s_email body) ->
    services.verify_password auth (s_password body)
      (services.get_password_hash auth (s_password body)) = Ok true ->
    services.get_email_from_token auth token = Ok (s_email body) ->
    exists (new_user : User) (bt : BackgroundTasks) (s1 s2 s3 : Session)
           (tokens : TokenSchema) (u3 : User),
      routes_auth.signup auth get_image body [] base_url s = (Ok (new_user, bt), s1) /\
      routes_auth.login auth (s_email body) (s_password body) s1
      = (Raise (HTTPException HTTP_401_UNAUTHORIZED "Email not confirmed"), s1) /\
      routes_auth.confirmed_email auth token s1 = (Ok "Email confirmed", s2) /\
      routes_auth.login auth (s_email body) (s_password body) s2 = (Ok tokens, s3) /\
      repositories_users.get_user_by_email (s_email body) s3 = (Ok (Some u3), s3) /\
      u_id u3 = u_id new_user /\
      u_confirmed u3 = true /\
      u_refresh_token u3 = Some (refresh_token_field tokens).
Proof.
  intros auth get_image s body base_url token ND Habs Hver Hdec.
  pose proof (signup_creates auth get_image s body [] base_url Habs) as Hrun.
  cbv zeta in Hrun.
  set (u := signed_up auth get_image body (working s)) in *.
  set (s1 := {| committed := {| users := (users (working s) ++ [u])%list;
                                contacts := contacts (working s) |};
                working := {| users := (users (working s) ++ [u])%list;
                              contacts := contacts (working s) |};
                log := (log s ++ [Commit])%list |}) in *.
  assert (ND1 : NoDup (map u_email (users (working s1)))).
  { cbn [s1 working users]. rewrite map_app. apply NoDup_appended; [exact ND |].
    intros Hin. apply in_map_iff in Hin. destruct Hin as (x & Hx & Hxin).
    exact (Habs x Hxin Hx). }
  assert (Hin1 : In u (users (working s1))).
  { cbn [s1 working users]. apply in_or_app. right. left. reflexivity. }
  assert (Hc1 : u_confirmed u = false) by reflexivity.
  assert (Hlogin1 : routes_auth.login auth (u_email u) (s_password body) s1
                    = (Raise (HTTPException HTTP_401_UNAUTHORIZED "Email not confirmed"), s1)).
  { unfold routes_auth.login, bind.
    rewrite (lookup_found s1 u ND1 Hin1), Hc1. reflexivity. }
  destruct (confirm_valid_keeps auth s1 u token ND1 Hin1 Hdec Hc1)
    as (s2 & Hrun2 & Hlook2 & ND2).
  destruct (lookup_in _ _ _ Hlook2) as [Hin2 _].
  destruct (login_succeeds auth s2 (repositories_users.set_confirmed u true)
                           (s_password body) ND2 Hin2 eq_refl Hver)
    as (s3 & Hrun3 & Hlook3).
  eexists u, _, s1, s2, s3, _, _.
  split; [exact Hrun |]. split; [exact Hlogin1 |]. split; [exact Hrun2 |].
  split; [exact Hrun3 |]. split; [exact Hlook3 |].
  repeat split.
Qed.

(** ** Invariants, router by router *)

Ltac keeps :=
  repeat (cbv zeta; intros;
          match goal with
          | |- preserves _ (bind _ _) => apply preserves_bind
          | |- preserves _ (ret _) => apply preserves_ret
          | |- preserves _ (raise _) => apply preserves_raise
          | |- preserves _ (lift _) => apply preserves_lift
          | |- preserves _ (getattr _ _ _) => apply preserves_getattr
          | |- preserves _ (repositories_users.get_user_by_email _) =>
              apply preserves_get_user_by_email
          | |- preserves _ (repository_contacts.get_contacts _ _ _) =>
              apply preserves_get_contacts
          | |- preserves _ (repository_contacts.get_all_contacts _ _) =>
              apply preserves_get_all_contacts
          | |- preserves _ (repository_contacts.get_contact _ _) =>
              apply preserves_get_contact
          | |- preserves _ (match ?x with _ => _ end) => destruct x
          | |- preserves _ _ => solve [auto]
          end).

Section AuthRouter.
Variable I : Session -> Prop.
Hypothesis signup_ok :
  forall auth get_image body bt base_url,
    preserves I (routes_auth.signup auth get_image body bt base_url).
Hypothesis update_token_ok :
  forall user token, preserves I (repositories_users.update_token user token).
Hypothesis confirmed_email_ok :
  forall email, preserves I (repositories_users.confirmed_email email).

Lemma auth_handle_preserves (auth : services.Auth) (get_image : string -> Result string)
      (req : app.Request) (bt : BackgroundTasks) :
  contacts_route req = false ->
  preserves I (app.handle auth get_image req bt).
Proof.
  destruct req; cbn [contacts_route]; intros Hr; try discriminate Hr;
    unfold app.handle, app.fmap;
    unfold routes_auth.login, routes_auth.refresh_token,
      routes_auth.confirmed_email, routes_auth.request_email,
      routes_auth.request_email_opened;
    keeps.
Qed.

End AuthRouter.

Section ContactsRouter.
Variable I : Session -> Prop.
Hypothesis update_contact_ok :
  forall contact_id body user,
    preserves I (repository_contacts.update_contact contact_id body user).
Hypothesis remove_contact_ok :
  forall contact_id user, preserves I (repository_contacts.remove_contact contact_id user).

Lemma contacts_handle_preserves (auth : services.Auth) (get_image : string -> Result string)
      (req : app.Request) (bt : BackgroundTasks) :
  contacts_route req = true ->
  preserves I (app.handle auth get_image req bt).
Proof.
  destruct req; cbn [contacts_route]; intros Hr; try discriminate Hr;
    unfold app.handle, app.fmap;
    try rewrite create_contact_unresolved;
    unfold routes_contacts.get_contacts,
      routes_contacts.get_all_todos, routes_contacts.get_contact,
      routes_contacts.update_contact, routes_contacts.delete_contact;
    keeps.
Qed.

End ContactsRouter.

(** What a request leaves durable is what its handler last saw. *)
Lemma serve_database (auth : services.Auth) (get_image : string -> Result string)
      (req : app.Request) (data : Store) :
  database (app.serve auth get_image req data)
  = working (snd (app.handle auth get_image req [] (open_session data))).
Proof.
  unfold app.serve, get_db.
  destruct (session_outcome (app.handle auth get_image req []) data) as (_ & Hdb & _).
  rewrite Hdb.
  apply (handle_synced auth get_image req [] (open_session data)).
  reflexivity.
Qed.

Lemma contact_writes_keep_users (P : list User -> Prop) :
  (forall contact_id body user,
     preserves (fun s => P (users (working s)))
               (repository_contacts.update_contact contact_id body user)) /\
  (forall contact_id user,
     preserves (fun s => P (users (working s)))
               (repository_contacts.remove_contact contact_id user)).
Proof.
  unfold preserves. split; intros; crack_repository; assumption.
Qed.

Lemma user_writes_keep_contacts (P : list Contact -> Prop) :
  (forall get_image body,
     preserves (fun s => P (contacts (working s)))
               (repositories_users.create_user get_image body)) /\
  (forall user token,
     preserves (fun s => P (contacts (working s)))
               (repositories_users.update_token user token)) /\
  (forall email,
     preserves (fun s => P (contacts (working s)))
               (repositories_users.confirmed_email email)).
Proof.
  unfold preserves. repeat split; intros; crack_repository; assumption.
Qed.

(** X16.  The two routers keep to their own table: a request of the
    contacts router leaves the users table as it was, and a request of the
    auth router leaves the contacts table as it was, whether the handler
    returns or raises. *)
Theorem routers_keep_apart :
  forall (auth : services.Auth) (get_image : string -> Result string)
         (req : app.Request) (data : Store),
    (contacts_route req = true ->
     users (database (app.serve auth get_image req data)) = users data) /\
    (contacts_route req = false ->
     contacts (database (app.serve auth get_image req data)) = contacts data).
Proof.
  intros auth get_image req data. rewrite serve_database. split; intros Hr.
  - destruct (contact_writes_keep_users (fun us => us = users data)) as [Hu Hd].
    apply (contacts_handle_preserves (fun s => users (working s) = users data)
             Hu Hd auth get_image req [] Hr (open_session data)).
    reflexivity.
  - destruct (user_writes_keep_contacts (fun cs => cs = contacts data)) as (Hc & Ht & He).
    apply (auth_handle_preserves (fun s => contacts (working s) = contacts data));
      auto.
    intros auth0 g body bt base_url. unfold routes_auth.signup. keeps.
Qed.

Lemma filter_nil_inv {A : Type} (p : A -> bool) (l : list A) :
  filter p l = [] -> forall x, In x l -> p x = false.
Proof.
  intros E x Hx. destruct (p x) eqn:Hp; [| reflexivity].
  assert (H : In x (filter p l)) by (apply filter_In; auto).
  rewrite E in H. contradiction.
Qed.

Lemma write_keeps_emails (user_id : Z) (f : User -> User) :
  (forall x, u_email (f x) = u_email x) ->
  preserves emails_unique (repositories_users.write_back user_id f ;;; commit).
Proof.
  intros Hem s H. unfold emails_unique in *.
  unfold bind, repositories_users.write_back, commit.
  cbn [snd working users].
  replace (map u_email (map (fun u => if u_id u =? user_id then f u else u) (users (working s))))
    with (map u_email (users (working s))); [exact H |].
  symmetry. apply (put_emails (users (working s)) user_id f Hem).
Qed.

Lemma signup_keeps_emails (auth : services.Auth) (get_image : string -> Result string)
      (body : UserSchema) (bt : BackgroundTasks) (base_url : string) :
  preserves emails_unique (routes_auth.signup auth get_image body bt base_url).
Proof.
  intros s H. unfold emails_unique in *.
  unfold routes_auth.signup, bind, repositories_users.get_user_by_email.
  destruct (filter (fun u => String.eqb (u_email u) (s_email body)) (users (working s)))
    as [| x [| y rest]] eqn:E; cbn [scalar_one_or_none]; try exact H.
  rewrite create_user_stores. cbn [snd ret working users].
  rewrite map_app. apply NoDup_appended; [exact H |].
  intros Hin. apply in_map_iff in Hin. destruct Hin as (x & Hx & Hxin).
  pose proof (filter_nil_inv _ _ E x Hxin) as Hp. cbv beta in Hp.
  cbn [repositories_users.new_user u_email s_email] in Hx.
  rewrite Hx, String.eqb_refl in Hp. discriminate.
Qed.

Lemma serve_keeps_emails (auth : services.Auth) (get_image : string -> Result string)
      (req : app.Request) (data : Store) :
  NoDup (map u_email (users data)) ->
  NoDup (map u_email (users (database (app.serve auth get_image req data)))).
Proof.
  intros ND. rewrite serve_database.
  change (emails_unique (snd (app.handle auth get_image req [] (open_session data)))).
  destruct (contacts_route req) eqn:Hr.
  - destruct (contact_writes_keep_users (fun us => NoDup (map u_email us))) as [Hu Hd].
    apply (contacts_handle_preserves emails_unique Hu Hd auth get_image req [] Hr).
    exact ND.
  - apply (auth_handle_preserves emails_unique); auto.
    + apply signup_keeps_emails.
    + intros user token. unfold repositories_users.update_token.
      apply write_keeps_emails. reflexivity.
    + intros email. unfold repositories_users.confirmed_email.
      apply preserves_bind; [apply preserves_get_user_by_email |].
      intros [u |]; [apply write_keeps_emails; reflexivity | apply preserves_raise].
Qed.

(** X17.  Emails stay unique: if no two accounts share an email, no sequence
    of requests to the two routers makes two accounts share one; the lookup
    that [signup] does before creating an account is what keeps it so. *)
Theorem emails_stay_unique :
  forall (auth : services.Auth) (get_image : string -> Result string)
         (reqs : list app.Request) (data : Store),
    NoDup (map u_email (users data)) ->
    NoDup (map u_email (users (app.run auth get_image reqs data))).
Proof.
  intros auth get_image reqs.
  induction reqs as [| req rest IH]; intros data ND; simpl; [exact ND |].
  apply IH. apply serve_keeps_emails. exact ND.
Qed.

Lemma reads_session (auth : services.Auth) (get_image : string -> Result string)
      (req : app.Request) (bt : BackgroundTasks) (s : Session) :
  reads_only req = true ->
  snd (app.handle auth get_image req bt s) = s.
Proof.
  intros Hr.
  assert (Hp : preserves (fun s' => s' = s) (app.handle auth get_image req bt));
    [| exact (Hp s eq_refl)].
  destruct req; cbn [reads_only] in Hr; try discriminate Hr;
    unfold app.handle, app.fmap, routes_auth.request_email,
      routes_auth.request_email_opened, routes_contacts.get_contacts,
      routes_contacts.get_all_todos, routes_contacts.get_contact;
    keeps.
Qed.

(** X18.  Reads do not write: the three GET routes of the contacts router,
    [request_email] and the tracking-image route leave the session exactly
    as they found it, whether they return or raise, and so leave the
    database as it was. *)
Theorem reads_do_not_write :
  forall (auth : services.Auth) (get_image : string -> Result string)
         (req : app.Request),
    reads_only req = true ->
    (forall bt s, snd (app.handle auth get_image req bt s) = s) /\
    (forall data, database (app.serve auth get_image req data) = data).
Proof.
  intros auth get_image req Hr. split.
  - intros bt s. apply reads_session. exact Hr.
  - intros data. rewrite serve_database, reads_session by exact Hr. reflexivity.
Qed.

(** ** The confirmation mail *)

(** X19.  [send_email] sends one message, to the given address only, and
    fails only when the transport fails otherwise than by
    [ConnectionErrors]: a successful transport gives a silent success, a
    [ConnectionErrors] is printed and absorbed, and any other exception of
    the transport is raised to the caller. *)
Theorem send_email_outcomes :
  forall (auth : services.Auth) (send_message : services.Transport)
         (email username host : string),
    let message := {| services.subject := "Confirm your email ";
                      services.recipients := [email];
                      services.template_body :=
                        [("host", host); ("username", username);
                         ("token", services.create_email_token auth [("sub", email)])] |} in
    let sent := send_message message "verify_email.html" in
    let r := services.send_email auth send_message email username host in
    (sent = Ok tt -> r = (Ok tt, [])) /\
    (forall m, sent = Raise (ConnectionErrors m) -> r = (Ok tt, [ConnectionErrors m])) /\
    (forall e, sent = Raise e -> (forall m, e <> ConnectionErrors m) -> r = (Raise e, [])) /\
    (fst r = Ok tt <-> (sent = Ok tt \/ exists m, sent = Raise (ConnectionErrors m))).
Proof.
  intros auth send_message email username host message sent r.
  unfold r, services.send_email. fold message. fold sent.
  destruct sent as [[] | e]; [| destruct e].
  all: repeat split; intros; try discriminate; try congruence; eauto.
  all: try match goal with
           | H : Raise _ = Raise ?e |- _ => inversion H; subst
           end;
       try match goal with
           | H : forall m, _ <> _ |- _ => solve [exfalso; eapply H; reflexivity | reflexivity]
           end.
  all: try match goal with
           | H : _ \/ _ |- _ => destruct H as [H | [m H]]; discriminate
           end.
  all: try (exfalso; match goal with H : fst _ = Ok tt |- _ => cbn in H; discriminate end).
Qed.

(** ** Rejections *)

Lemma refresh_after_write (rows : list Contact) (c : Contact) (k : Z)
      (f : Contact -> Contact) :
  (forall x, c_id (f x) = c_id x) -> In c rows ->
  find (fun x => c_id x =? c_id c)
       (map (fun x => if c_id x =? k then f x else x) rows) <> None.
Proof.
  intros Hid Hin Hnone.
  pose proof (find_none _ _ Hnone (if c_id c =? k then f c else c)) as H.
  cbv beta in H.
  assert (Hmem : In (if c_id c =? k then f c else c)
                    (map (fun x => if c_id x =? k then f x else x) rows)).
  { apply in_map_iff. exists c. auto. }
  specialize (H Hmem).
  destruct (c_id c =? k); [rewrite Hid in H |]; rewrite Z.eqb_refl in H; discriminate.
Qed.

Lemma update_contact_raise_unchanged (contact_id : Z) (body : ContactSchema) (user : User)
      (s : Session) (e : Exn) :
  fst (repository_contacts.update_contact contact_id body user s) = Raise e ->
  snd (repository_contacts.update_contact contact_id body user s) = s.
Proof.
  unfold repository_contacts.update_contact, bind, repository_contacts.get_contact.
  destruct (repository_contacts.filter_by_id_user contact_id user (contacts (working s)))
    as [| c [| c2 rest]] eqn:E; cbn [scalar_one_or_none];
    [intros _; reflexivity | | intros _; reflexivity].
  unfold repository_contacts.write_back, commit, repository_contacts.refresh, ret.
  cbn [working committed contacts users log].
  { 
    assert (Hin : In c (contacts (working s))).
    { assert (Hc : In c (repository_contacts.filter_by_id_user contact_id user
                           (contacts (working s)))) by (rewrite E; left; reflexivity).
      apply filter_In in Hc. tauto. }
    pose proof (refresh_after_write (contacts (working s)) c (c_id c)
                  (repository_contacts.assign body) (fun x => eq_refl) Hin) as Hfound.
    destruct (find (fun c0 => c_id c0 =? c_id c)
                   (map (fun c0 => if c_id c0 =? c_id c
                                   then repository_contacts.assign body c0 else c0)
                        (contacts (working s)))); [| contradiction].
    intros H. discriminate H. }
Qed.

Lemma fmap_raise {A B : Type} (f : A -> B) (m : M A) (s : Session) (e : Exn) :
  fst (app.fmap f m s) = Raise e -> fst (m s) = Raise e.
Proof.
  unfold app.fmap, bind, ret. destruct (m s) as [[a | e'] s1]; cbn [fst]; intros H;
    [discriminate H | inversion H; reflexivity].
Qed.

Lemma fmap_state {A B : Type} (f : A -> B) (m : M A) (s : Session) :
  snd (app.fmap f m s) = snd (m s).
Proof.
  unfold app.fmap, bind, ret. destruct (m s) as [[a | e'] s1]; reflexivity.
Qed.

Lemma login_raise_unchanged (auth : services.Auth) (username password : string)
      (s : Session) (e : Exn) :
  fst (routes_auth.login auth username password s) = Raise e ->
  snd (routes_auth.login auth username password s) = s.
Proof.
  unfold routes_auth.login, bind, repositories_users.get_user_by_email, lift.
  destruct (filter (fun u => String.eqb (u_email u) username) (users (working s)))
    as [| u [| u2 rest]]; cbn [scalar_one_or_none]; try (intros _; reflexivity).
  destruct (u_confirmed u); cbn [negb]; [| intros _; reflexivity].
  destruct (services.verify_password auth password (u_password u)) as [[|] | e'];
    cbn [negb]; try (intros _; reflexivity).
  cbn. intros H. discriminate H.
Qed.

Lemma signup_raise_unchanged (auth : services.Auth) (get_image : string -> Result string)
      (body : UserSchema) (bt : BackgroundTasks) (base_url : string) (s : Session) (e : Exn) :
  fst (routes_auth.signup auth get_image body bt base_url s) = Raise e ->
  snd (routes_auth.signup auth get_image body bt base_url s) = s.
Proof.
  unfold routes_auth.signup, bind, repositories_users.get_user_by_email.
  destruct (filter (fun u => String.eqb (u_email u) (s_email body)) (users (working s)))
    as [| u [| u2 rest]]; cbn [scalar_one_or_none]; try (intros _; reflexivity).
  rewrite create_user_stores. cbn. intros H. discriminate H.
Qed.

Lemma confirmed_email_raise_unchanged (auth : services.Auth) (token : string)
      (s : Session) (e : Exn) :
  fst (routes_auth.confirmed_email auth token s) = Raise e ->
  snd (routes_auth.confirmed_email auth token s) = s.
Proof.
  unfold routes_auth.confirmed_email, repositories_users.confirmed_email, bind, lift,
    repositories_users.get_user_by_email.
  destruct (services.get_email_from_token auth token) as [email | e'];
    [| intros _; reflexivity].
  destruct (filter (fun u => String.eqb (u_email u) email) (users (working s)))
    as [| u [| u2 rest]] eqn:E; cbn [scalar_one_or_none]; try (intros _; reflexivity).
  destruct (u_confirmed u); [intros _; reflexivity |].
  rewrite E. cbn. intros H. discriminate H.
Qed.

Lemma delete_contact_raise_unchanged (contact_id : Z) (user : User) (s : Session) (e : Exn) :
  fst (routes_contacts.delete_contact contact_id user s) = Raise e ->
  snd (routes_contacts.delete_contact contact_id user s) = s.
Proof.
  unfold routes_contacts.delete_contact, repository_contacts.remove_contact, bind,
    repository_contacts.get_contact.
  destruct (repository_contacts.filter_by_id_user contact_id user (contacts (working s)))
    as [| c [| c2 rest]]; cbn [scalar_one_or_none]; try (intros _; reflexivity).
  cbn. intros H. discriminate H.
Qed.

Lemma update_route_raise_unchanged (contact_id : Z) (body : ContactSchema) (user : User)
      (s : Session) (e : Exn) :
  fst (routes_contacts.update_contact body contact_id user s) = Raise e ->
  snd (routes_contacts.update_contact body contact_id user s) = s.
Proof.
  unfold routes_contacts.update_contact, bind.
  pose proof (update_contact_raise_unchanged contact_id body user s) as Hrepo.
  destruct (repository_contacts.update_contact contact_id body user s)
    as [[[c |] | e'] s1] eqn:E; cbn [fst snd] in *.
  - cbn. intros H. discriminate H.
  - intros _. cbn.
    (* none found: the repository changed nothing *)
    revert E. unfold repository_contacts.update_contact, bind, repository_contacts.get_contact.
    destruct (repository_contacts.filter_by_id_user contact_id user (contacts (working s)))
      as [| c [| c2 rest]]; cbn [scalar_one_or_none].
    + intros E. inversion E. reflexivity.
    + unfold repository_contacts.write_back, commit, repository_contacts.refresh, ret.
      cbn [working committed contacts users log].
      match goal with
      | |- context [find ?p ?l] => destruct (find p l)
      end; intros E; inversion E.
    + intros E. inversion E.
  - intros _. exact (Hrepo e' eq_refl).
Qed.

(** X20.  A rejection changes nothing, except in [refresh_token]: when the
    handler of any other request raises, whatever the exception, the session
    is exactly as it was before the request. *)
Theorem rejections_change_nothing :
  forall (auth : services.Auth) (get_image : string -> Result string)
         (req : app.Request) (bt : BackgroundTasks) (s : Session) (e : Exn),
    is_refresh req = false ->
    fst (app.handle auth get_image req bt s) = Raise e ->
    snd (app.handle auth get_image req bt s) = s.
Proof.
  intros auth get_image req bt s e Hr Hraise.
  destruct req; cbn [is_refresh] in Hr; try discriminate Hr;
    unfold app.handle in *; rewrite fmap_state; apply fmap_raise in Hraise.
  - eapply signup_raise_unchanged; eauto.
  - eapply login_raise_unchanged; eauto.
  - eapply confirmed_email_raise_unchanged; eauto.
  - rewrite <- (fmap_state (fun r => (app.JsonMessage (fst r), snd r))).
    apply (reads_session auth get_image (app.POST_auth_request_email email base_url) bt s).
    reflexivity.
  - reflexivity.
  - reflexivity.
  - unfold routes_contacts.get_all_todos, bind, lift.
    destruct (routes_contacts.access_to_route_all user); reflexivity.
  - unfold routes_contacts.get_contact, bind, repository_contacts.get_contact.
    destruct (scalar_one_or_none _) as [[c |] | e']; reflexivity.
  - reflexivity.
  - eapply update_route_raise_unchanged; eauto.
  - eapply delete_contact_raise_unchanged; eauto.
Qed.

(** ** One account's session and another's *)

Lemma write_spares_others (s : Session) (x u : User) (f : User -> User) :
  NoDup (map u_id (users (working s))) ->
  In x (users (working s)) -> In u (users (working s)) -> x <> u ->
  In x (users (working (snd ((repositories_users.write_back (u_id u) f ;;; commit) s)))).
Proof.
  intros ND Hx Hu Hne. cbn.
  apply in_map_iff. exists x. split; [| exact Hx].
  replace (u_id x =? u_id u) with false; [reflexivity |].
  symmetry. apply Z.eqb_neq. intros E. apply Hne. eapply key_injective; eauto.
Qed.

Lemma single_match (s : Session) (email : string) (u : User) (rest : list User) :
  filter (fun y => String.eqb (u_email y) email) (users (working s)) = u :: rest ->
  In u (users (working s)) /\ u_email u = email.
Proof.
  intros E.
  assert (Hu : In u (filter (fun y => String.eqb (u_email y) email) (users (working s))))
    by (rewrite E; left; reflexivity).
  apply filter_In in Hu. destruct Hu as [Hin Hem]. apply String.eqb_eq in Hem. auto.
Qed.

(** X21.  Sessions are per account, user ids being unique: [login],
    [refresh_token] and [confirmed_email] write at most the row of the
    account they are about, so the row of any account with another email is
    in the table afterwards exactly as before, with its refresh token and
    its confirmation flag, whether the handler returns or raises. *)
Theorem other_accounts_untouched :
  forall (auth : services.Auth) (s : Session) (x : User),
    NoDup (map u_id (users (working s))) ->
    In x (users (working s)) ->
    (forall username password,
       u_email x <> username ->
       In x (users (working (snd (routes_auth.login auth username password s))))) /\
    (forall token,
       services.decode_refresh_token auth token <> Ok (u_email x) ->
       In x (users (working (snd (routes_auth.refresh_token auth token s))))) /\
    (forall token,
       services.get_email_from_token auth token <> Ok (u_email x) ->
       In x (users (working (snd (routes_auth.confirmed_email auth token s))))).
Proof.
  intros auth s x ND Hx. split; [| split].
  - intros username password Hne.
    unfold routes_auth.login, bind, repositories_users.get_user_by_email, lift.
    destruct (filter (fun u => String.eqb (u_email u) username) (users (working s)))
      as [| u [| u2 rest]] eqn:E; cbn [scalar_one_or_none]; try exact Hx.
    destruct (single_match _ _ _ _ E) as [Hu Hem].
    destruct (u_confirmed u); cbn [negb]; [| exact Hx].
    destruct (services.verify_password auth password (u_password u)) as [[|] | e'];
      cbn [negb]; try exact Hx.
    unfold repositories_users.update_token.
    match goal with
    | |- context [(repositories_users.write_back ?i ?f ;;; commit) s] =>
        pose proof (write_spares_others s x u f ND Hx Hu) as Hkeep
    end.
    destruct ((repositories_users.write_back (u_id u) _ ;;; commit) s) as [[[] | e'] s1];
      cbn in *; apply Hkeep; congruence.
  - intros token Hne.
    unfold routes_auth.refresh_token, bind, repositories_users.get_user_by_email, lift.
    destruct (services.decode_refresh_token auth token) as [email | e']; [| exact Hx].
    destruct (filter (fun u => String.eqb (u_email u) email) (users (working s)))
      as [| u [| u2 rest]] eqn:E; cbn [scalar_one_or_none]; try exact Hx.
    destruct (single_match _ _ _ _ E) as [Hu Hem].
    assert (Hxu : x <> u) by (intros ->; apply Hne; congruence).
    unfold repositories_users.update_token.
    destruct (routes_auth.token_differs (u_refresh_token u) token).
    + pose proof (write_spares_others s x u
                    (fun row => repositories_users.set_refresh_token row None)
                    ND Hx Hu Hxu) as Hkeep.
      destruct ((repositories_users.write_back (u_id u) _ ;;; commit) s) as [[[] | e'] s1];
        cbn in *; exact Hkeep.
    + match goal with
      | |- context [(repositories_users.write_back ?i ?f ;;; commit) s] =>
          pose proof (write_spares_others s x u f ND Hx Hu Hxu) as Hkeep
      end.
      destruct ((repositories_users.write_back (u_id u) _ ;;; commit) s) as [[[] | e'] s1];
        cbn in *; exact Hkeep.
  - intros token Hne.
    unfold routes_auth.confirmed_email, repositories_users.confirmed_email, bind, lift,
      repositories_users.get_user_by_email.
    destruct (services.get_email_from_token auth token) as [email | e']; [| exact Hx].
    destruct (filter (fun u => String.eqb (u_email u) email) (users (working s)))
      as [| u [| u2 rest]] eqn:E; cbn [scalar_one_or_none]; try exact Hx.
    destruct (single_match _ _ _ _ E) as [Hu Hem].
    assert (Hxu : x <> u) by (intros ->; apply Hne; congruence).
    destruct (u_confirmed u); [exact Hx |].
    rewrite E. cbn [scalar_one_or_none].
    pose proof (write_spares_others s x u
                  (fun row => repositories_users.set_confirmed row true)
                  ND Hx Hu Hxu) as Hkeep.
    unfold bind in Hkeep.
    destruct (repositories_users.write_back (u_id u)
                (fun row => repositories_users.set_confirmed row true) s)
      as [[[] | e'] s1]; cbn in *; exact Hkeep.
Qed.

(** ** The further properties at the sample data *)

Lemma sample_user_ids_unique : NoDup (map u_id (users (working Sample.s0))).
Proof. repeat constructor; simpl; intuition discriminate. Defined.


Lemma update_by_owner_witness :
  exists c' s',
    repository_contacts.update_contact 1 Sample.body Sample.alice Sample.s0
    = (Ok (Some c'), s') /\
    c_first_name c' = "K" /\ c_id c' = 1 /\ c_user_id c' = 1 /\
    contacts (working s') = [c'].
Proof.
  destruct (update_by_owner Sample.s0 Sample.jd Sample.alice Sample.body)
    as (c' & s' & Hrun & _ & Hc' & _).
  - exact sample_contact_ids_unique.
  - left. reflexivity.
  - reflexivity.
  - exists c', s'. split; [exact Hrun |]. subst c'.
    repeat split. vm_compute in Hrun. inversion Hrun. reflexivity.
Defined.

Lemma remove_by_owner_witness :
  exists s',
    repository_contacts.remove_contact 1 Sample.alice Sample.s0 = (Ok (Some Sample.jd), s') /\
    repository_contacts.get_contact 1 Sample.alice s' = (Ok None, s').
Proof.
  destruct (remove_by_owner Sample.s0 Sample.jd Sample.alice)
    as (s' & Hrun & _ & _ & _ & _ & _ & _ & Hget & _).
  - exact sample_contact_ids_unique.
  - left. reflexivity.
  - reflexivity.
  - exists s'. split; [exact Hrun | exact Hget].
Defined.

Lemma foreign_contacts_witness :
  In Sample.jd
     (contacts (working (snd (repository_contacts.update_contact 1 Sample.body Sample.bob
                                                                  Sample.s0)))) /\
  In Sample.jd
     (contacts (working (snd (repository_contacts.remove_contact 1 Sample.bob Sample.s0)))).
Proof.
  destruct (foreign_contacts_untouched Sample.s0 1 Sample.body Sample.bob
              sample_contact_ids_unique) as (Hkeep & _).
  apply (Hkeep Sample.jd).
  - left. reflexivity.
  - cbv. discriminate.
Defined.

Lemma contact_ids_unique_witness :
  NoDup (map c_id (contacts (working
           (snd (repository_contacts.create_todo Sample.body Sample.bob Sample.s0))))).
Proof.
  destruct (contact_ids_stay_unique Sample.s0 sample_contact_ids_unique) as (Hcreate & _).
  apply Hcreate.
Defined.

Lemma refresh_rotates_witness :
  exists s',
    routes_auth.refresh_token Sample.auth "a@x.com#old" Sample.s0
    = (Ok {| access_token := "a@x.com#access"; refresh_token_field := "a@x.com#refresh";
             token_type := "bearer" |}, s').
Proof.
  destruct (refresh_rotates Sample.auth Sample.s0 Sample.alice "a@x.com#old")
    as (s' & u' & Hrun & _).
  - exact sample_emails_unique.
  - left. reflexivity.
  - reflexivity.
  - reflexivity.
  - exists s'. exact Hrun.
Defined.

Lemma refresh_replay_witness :
  exists tokens s1 s2 s3,
    routes_auth.refresh_token Sample.auth "a@x.com#old" Sample.s0 = (Ok tokens, s1) /\
    refresh_token_field tokens = "a@x.com#refresh" /\
    routes_auth.refresh_token Sample.auth "a@x.com#old" s1
    = (Raise (HTTPException HTTP_401_UNAUTHORIZED "Invalid refresh token"), s2) /\
    routes_auth.refresh_token Sample.auth "a@x.com#refresh" s2
    = (Raise (HTTPException HTTP_401_UNAUTHORIZED "Invalid refresh token"), s3).
Proof.
  apply (refresh_replay_kills_session Sample.auth Sample.s0 Sample.alice "a@x.com#old").
  - exact sample_emails_unique.
  - left. reflexivity.
  - reflexivity.
  - reflexivity.
  - cbv. discriminate.
  - reflexivity.
Defined.

Lemma request_email_known_witness :
  routes_auth.request_email "b@x.com" [] "http://h/" Sample.s0
  = (Ok ("Check your email for confirmation.", [send_email_task "b@x.com" "bob" "http://h/"]),
     Sample.s0) /\
  routes_auth.request_email "a@x.com" [] "http://h/" Sample.s0
  = (Ok ("Your email is already confirmed", []), Sample.s0).
Proof.
  split.
  - apply (request_email_known Sample.s0 Sample.bob [] "http://h/" sample_emails_unique).
    right. left. reflexivity.
  - apply (request_email_known Sample.s0 Sample.alice [] "http://h/" sample_emails_unique).
    left. reflexivity.
Defined.

Lemma signup_confirm_login_witness :
  exists new_user bt s1 s2 s3 tokens u3,
    routes_auth.signup Sample.auth Sample.get_image Sample.carol [] "http://h/" Sample.s0
    = (Ok (new_user, bt), s1) /\
    routes_auth.login Sample.auth "c@x.com" "pw3" s1
    = (Raise (HTTPException HTTP_401_UNAUTHORIZED "Email not confirmed"), s1) /\
    routes_auth.confirmed_email Sample.auth "c@x.com#email" s1 = (Ok "Email confirmed", s2) /\
    routes_auth.login Sample.auth "c@x.com" "pw3" s2 = (Ok tokens, s3) /\
    repositories_users.get_user_by_email "c@x.com" s3 = (Ok (Some u3), s3) /\
    u_id u3 = u_id new_user /\
    u_confirmed u3 = true /\
    u_refresh_token u3 = Some (refresh_token_field tokens).
Proof.
  apply (signup_confirm_login Sample.auth Sample.get_image Sample.s0 Sample.carol
           "http://h/" "c@x.com#email").
  - exact sample_emails_unique.
  - apply sample_email_free; discriminate.
  - reflexivity.
  - reflexivity.
Defined.

Lemma emails_stay_unique_witness :
  NoDup (map u_email
           (users (app.run Sample.auth Sample.get_image
                     [app.POST_auth_signup Sample.carol "http://h/";
                      app.POST_auth_signup Sample.carol "http://h/";
                      app.GET_auth_confirmed_email "c@x.com#email"]
                     Sample.data))).
Proof.
  apply emails_stay_unique. exact sample_emails_unique.
Defined.

Lemma reads_do_not_write_witness :
  database (app.serve Sample.auth Sample.get_image
              (app.GET_contacts_id 1 Sample.bob) Sample.data) = Sample.data.
Proof.
  destruct (reads_do_not_write Sample.auth Sample.get_image (app.GET_contacts_id 1 Sample.bob)
              eq_refl) as [_ Hdb].
  apply Hdb.
Defined.

Lemma rejections_change_nothing_witness :
  snd (app.handle Sample.auth Sample.get_image (app.POST_auth_login "b@x.com" "pw2") []
                  Sample.s0) = Sample.s0.
Proof.
  apply (rejections_change_nothing Sample.auth Sample.get_image
           (app.POST_auth_login "b@x.com" "pw2") [] Sample.s0
           (HTTPException HTTP_401_UNAUTHORIZED "Email not confirmed")).
  - reflexivity.
  - reflexivity.
Defined.

Lemma other_accounts_witness :
  In Sample.bob
     (users (working (snd (routes_auth.login Sample.auth "a@x.com" "pw" Sample.s0)))) /\
  In Sample.bob
     (users (working (snd (routes_auth.refresh_token Sample.auth "a@x.com#stale" Sample.s0)))).
Proof.
  destruct (other_accounts_untouched Sample.auth Sample.s0 Sample.bob sample_user_ids_unique)
    as (Hlogin & Hrefresh & _).
  - right. left. reflexivity.
  - split.
    + apply Hlogin. cbv. discriminate.
    + apply Hrefresh. cbv. discriminate.
Defined.
